(** * Activity-log listener: a shallow embedding of [handleLogEvent]

    The development follows [src/broadcastlistener/activity.listener.ts]
    and [src/search/search.module.ts].  JavaScript objects are finite maps
    from property names to values, living in a heap so that aliasing and
    in-place updates are visible.  The handler runs in a small state and
    exception monad over a [World] that holds the heap, the CLS context
    stack, the relational table, the search index, both clocks, the health
    of both sinks and a chronological trace of everything observable. *)

From Stdlib Require Import ZArith String Ascii List Lia.
From stdpp Require Import base gmap strings list fin_maps pretty infinite.

Open Scope string_scope.
Open Scope Z_scope.
Open Scope list_scope.

(** ** Values, objects and errors *)

(** Property values of the JSON-decoded objects that travel on the channel.
    Numbers are kept as integers: the handler never computes with them. *)
Inductive prim :=
| PUndefined
| PNull
| PBool (b : bool)
| PNum (n : Z)
| PStr (s : string).

#[global] Instance prim_eq_dec : EqDecision prim.
Proof. solve_decision. Defined.

Abbreviation obj := (gmap string prim).
Abbreviation loc := positive.

(** What the event emitter may hand to the handler: nothing, null, or a
    reference to an object. *)
Inductive JsArg :=
| JUndefined
| JNull
| JObject (l : loc).

Record JsError := mkError { err_name : string; err_message : string }.

#[global] Instance JsError_eq_dec : EqDecision JsError.
Proof. solve_decision. Defined.

(** String conversion used by template literals. *)
Definition to_string (v : prim) : string :=
  match v with
  | PUndefined => "undefined"
  | PNull => "null"
  | PBool true => "true"
  | PBool false => "false"
  | PNum n => pretty n
  | PStr s => s
  end.

(** ** The observable trace *)

Inductive Level := LLog | LWarn | LError.

#[global] Instance Level_eq_dec : EqDecision Level.
Proof. solve_decision. Defined.

(** SQL statements the repository sends to the relational store. *)
Inductive SqlStmt :=
| SqlInsert (id : string) (row : obj)
| SqlUpdate (id : string) (row : obj).

Inductive Event :=
| EvLog (lvl : Level) (msg : string) (detail : option JsError)
| EvClsEnter
| EvClsExit
| EvSaveCall (entity : obj) (identity : option prim)
| EvSql (stmt : SqlStmt)
| EvSaveReturn (failure : option JsError)
| EvIndexCall (node index : string) (body : obj)
| EvIndexReturn (failure : option JsError).

(** ** The world *)

Record World := mkWorld {
  heap : gmap loc obj;              (* JavaScript objects *)
  cls : list obj;                   (* active CLS stores, innermost first *)
  db_table : gmap string obj;       (* activity_logs, keyed by id *)
  db_clock : Z;                     (* the store's clock, ms since epoch *)
  db_fault : obj -> option JsError; (* does the store reject this write? *)
  es_docs : list (string * obj);    (* indexed documents, with their index *)
  es_fault : string -> string -> obj -> option JsError;
                                    (* node, index, body: does indexing fail? *)
  app_clock : Z;                    (* the process clock, ms since epoch *)
  trace : list Event                (* oldest first *)
}.

Definition set_heap (h : gmap loc obj) (w : World) : World :=
  mkWorld h (cls w) (db_table w) (db_clock w) (db_fault w)
          (es_docs w) (es_fault w) (app_clock w) (trace w).

Definition set_cls (c : list obj) (w : World) : World :=
  mkWorld (heap w) c (db_table w) (db_clock w) (db_fault w)
          (es_docs w) (es_fault w) (app_clock w) (trace w).

Definition set_db_table (t : gmap string obj) (w : World) : World :=
  mkWorld (heap w) (cls w) t (db_clock w) (db_fault w)
          (es_docs w) (es_fault w) (app_clock w) (trace w).

Definition set_es_docs (d : list (string * obj)) (w : World) : World :=
  mkWorld (heap w) (cls w) (db_table w) (db_clock w) (db_fault w)
          d (es_fault w) (app_clock w) (trace w).

Definition emit (ev : Event) (w : World) : World :=
  mkWorld (heap w) (cls w) (db_table w) (db_clock w) (db_fault w)
          (es_docs w) (es_fault w) (app_clock w) (trace w ++ [ev]).

(** ** The monad: state plus JavaScript exceptions *)

Inductive Result (A : Type) :=
| Ok (a : A)
| Throw (e : JsError).
Arguments Ok {A} a.
Arguments Throw {A} e.

Definition M (A : Type) : Type := World -> Result A * World.

#[global] Instance M_ret : MRet M := fun A a w => (Ok a, w).

#[global] Instance M_bind : MBind M := fun A B f m w =>
  match m w with
  | (Ok a, w') => f a w'
  | (Throw e, w') => (Throw e, w')
  end.

Definition throw {A} (e : JsError) : M A := fun w => (Throw e, w).

(** [try { body } catch (e) { handler e }] *)
Definition try_catch {A} (body : M A) (handler : JsError -> M A) : M A :=
  fun w =>
    match body w with
    | (Ok a, w') => (Ok a, w')
    | (Throw e, w') => handler e w'
    end.

Definition modify (f : World -> World) : M unit := fun w => (Ok tt, f w).
Definition gets {A} (f : World -> A) : M A := fun w => (Ok (f w), w).

(** ** Language-level operations *)

(** The object a reference points to (a dangling reference reads as the
    empty object; the theorems assume the payload is live). *)
Definition deref (l : loc) (w : World) : obj := default ∅ (heap w !! l).

(** [payload.key]: reading a property of undefined or null throws. *)
Definition get_prop (v : JsArg) (key : string) : M prim :=
  match v with
  | JUndefined =>
      throw (mkError "TypeError"
        ("Cannot read properties of undefined (reading '" +:+ key +:+ "')"))
  | JNull =>
      throw (mkError "TypeError"
        ("Cannot read properties of null (reading '" +:+ key +:+ "')"))
  | JObject l => gets (fun w => default PUndefined (deref l w !! key))
  end.

(** The own properties copied by [{...v}]: none for undefined and null. *)
Definition own_props (v : JsArg) : M obj :=
  match v with
  | JObject l => gets (deref l)
  | _ => mret ∅
  end.

(** A fresh object on the heap. *)
Definition alloc (o : obj) : M loc := fun w =>
  let l := fresh (dom (heap w)) in
  (Ok l, set_heap (<[l := o]> (heap w)) w).

(** ** Logger *)

Definition logger_log (msg : string) : M unit :=
  modify (emit (EvLog LLog msg None)).
Definition logger_warn (msg : string) : M unit :=
  modify (emit (EvLog LWarn msg None)).
Definition logger_error (msg : string) (e : JsError) : M unit :=
  modify (emit (EvLog LError msg (Some e))).

(** ** [Date.prototype.toISOString]

    The ECMAScript algorithm on a time value [t] in milliseconds since the
    epoch: split into day number and time within the day, convert the day
    number to a proleptic Gregorian date, print with fixed widths.  Years
    outside 0..9999 are printed in the expanded form with a sign and six
    digits. *)

Definition msPerDay : Z := 86400000.

Definition Day (t : Z) : Z := t / msPerDay.
Definition TimeWithinDay (t : Z) : Z := t mod msPerDay.

(** Year, month (1..12) and day of month (1..31) of a day number. *)
Definition civil_from_days (days : Z) : Z * Z * Z :=
  let z := days + 719468 in
  let era := z / 146097 in
  let doe := z - era * 146097 in
  let yoe := (doe - doe / 1460 + doe / 36524 - doe / 146096) / 365 in
  let doy := doe - (365 * yoe + yoe / 4 - yoe / 100) in
  let mp := (5 * doy + 2) / 153 in
  let d := doy - (153 * mp + 2) / 5 + 1 in
  let m := if mp <? 10 then mp + 3 else mp - 9 in
  let y := yoe + era * 400 in
  (if m <=? 2 then y + 1 else y, m, d).

Definition digit (n : Z) : ascii := ascii_of_nat (48 + Z.to_nat (n mod 10)).

Definition pad2 (n : Z) : string :=
  String (digit (n / 10)) (String (digit n) EmptyString).
Definition pad3 (n : Z) : string := String (digit (n / 100)) (pad2 n).
Definition pad4 (n : Z) : string := String (digit (n / 1000)) (pad3 n).
Definition pad6 (n : Z) : string :=
  String (digit (n / 100000)) (String (digit (n / 10000)) (pad4 n)).

Definition year_string (y : Z) : string :=
  if (0 <=? y) && (y <=? 9999) then pad4 y
  else if y <? 0 then String "-" (pad6 (- y))
  else String "+" (pad6 y).

Definition toISOString (t : Z) : string :=
  let '(y, m, d) := civil_from_days (Day t) in
  let tod := TimeWithinDay t in
  year_string y +:+ "-" +:+ pad2 m +:+ "-" +:+ pad2 d +:+ "T" +:+
  pad2 (tod / 3600000) +:+ ":" +:+ pad2 (tod / 60000 mod 60) +:+ ":" +:+
  pad2 (tod / 1000 mod 60) +:+ "." +:+ pad3 (tod mod 1000) +:+ "Z".

(** Recogniser of the two ISO-8601 layouts above:
    [YYYY-MM-DDTHH:mm:ss.sssZ] and [±YYYYYY-MM-DDTHH:mm:ss.sssZ]. *)
Definition is_digit (c : ascii) : bool :=
  let n := nat_of_ascii c in (48 <=? n)%nat && (n <=? 57)%nat.

Fixpoint matches (pattern s : string) : bool :=
  match pattern, s with
  | EmptyString, EmptyString => true
  | String p pattern', String c s' =>
      (if Ascii.eqb p "d" then is_digit c else Ascii.eqb p c)
      && matches pattern' s'
  | _, _ => false
  end.

Definition is_iso8601 (s : string) : bool :=
  matches "dddd-dd-ddTdd:dd:dd.dddZ" s
  || matches "+dddddd-dd-ddTdd:dd:dd.dddZ" s
  || matches "-dddddd-dd-ddTdd:dd:dd.dddZ" s.

(** [new Date().toISOString()] *)
Definition Date_now_toISOString : M string :=
  gets (fun w => toISOString (app_clock w)).

(** ** The CLS service (nestjs-cls over AsyncLocalStorage) *)

(** [clsService.run(callback)]: the callback runs inside a fresh store; the
    store is left when the callback's promise settles, fulfilled or
    rejected. *)
Definition cls_run {A} (callback : M A) : M A := fun w =>
  let '(r, w') := callback (set_cls (∅ :: cls w) (emit EvClsEnter w)) in
  (r, emit EvClsExit (set_cls (tail (cls w')) w')).

(** [clsService.set(key, value)]: fails outside any context. *)
Definition cls_set (key : string) (v : prim) : M unit := fun w =>
  match cls w with
  | [] =>
      (Throw (mkError "Error"
         ("No CLS context available, cannot set the key " +:+ key)), w)
  | store :: outer => (Ok tt, set_cls (<[key := v]> store :: outer) w)
  end.

(** [clsService.get(key)], as the storage layer would read it. *)
Definition cls_get (key : string) (w : World) : option prim :=
  match cls w with
  | [] => None
  | store :: _ => store !! key
  end.

(** ** The relational writer (TypeORM repository of [ActivityLog]) *)

(** Modelled from the spec: the entity declaration [activity.entity.ts] is
    not among the sources; its columns are those of the relational schema,
    with [id] and [timestamp] generated by the store. *)
Definition ActivityLog_columns : list string :=
  ["id"; "timestamp"; "userId"; "url"; "processType"; "responseTimeMs"].

Definition is_column (kv : string * prim) : Prop :=
  kv.1 ∈ ActivityLog_columns ∧ kv.2 ≠ PUndefined.

#[global] Instance is_column_dec kv : Decision (is_column kv).
Proof. unfold is_column. apply _. Defined.

(** [logRepository.create(plain)]: a new entity object that receives the
    defined column properties of [plain]; [plain] itself is only read. *)
Definition entity_of (plain : obj) : obj := filter is_column plain.

Definition repo_create (plain : JsArg) : M loc :=
  props ← own_props plain;
  alloc (entity_of props).

(** The primary key an entity already carries, if any. *)
Definition entity_id (e : obj) : option string :=
  match e !! "id" with
  | Some (PStr i) => Some i
  | _ => None
  end.

(** The row written for a new entity: the store generates [id] and
    [timestamp] where the entity leaves them out. *)
Definition new_row (id : string) (e : obj) (now : Z) : obj :=
  <["id" := PStr id]>
    (match e !! "timestamp" with
     | Some _ => e
     | None => <["timestamp" := PNum now]> e
     end).

(** What [save] sends for an entity: an entity without primary key, or
    whose key is not in the table, is inserted; an entity whose key is in
    the table updates that row.  Returns the statement, the key and the row
    as stored. *)
Definition plan_save (e : obj) (table : gmap string obj) (now : Z)
  : SqlStmt * string * obj :=
  match entity_id e with
  | Some i =>
      match table !! i with
      | Some old => (SqlUpdate i (e ∪ old), i, e ∪ old)
      | None => (SqlInsert i (new_row i e now), i, new_row i e now)
      end
  | None =>
      let i := fresh (dom table) in
      (SqlInsert i (new_row i e now), i, new_row i e now)
  end.

(** [logRepository.save(entity)]: one round trip to the store, made inside
    whatever CLS context is active.  A rejected write throws.  On success
    the generated columns are written back into the entity object. *)
Definition repo_save (l : loc) : M unit := fun w =>
  let e := deref l w in
  let w1 := emit (EvSaveCall e (cls_get "userId" w)) w in
  match db_fault w e with
  | Some err => (Throw err, emit (EvSaveReturn (Some err)) w1)
  | None =>
      let '(stmt, id, row) := plan_save e (db_table w) (db_clock w) in
      (Ok tt,
       emit (EvSaveReturn None)
         (set_heap (<[l := row]> (heap w))
            (set_db_table (<[id := row]> (db_table w))
               (emit (EvSql stmt) w1))))
  end.

(** ** The search indexer (Elasticsearch client) *)

Record ElasticsearchService := mkEs { es_node : string }.

(** [elasticsearchService.index({ index, body })]: one request to the
    node.  A failed request throws; otherwise the body is stored as a new
    document of the index. *)
Definition es_index (es : ElasticsearchService) (index : string) (body : loc)
  : M unit := fun w =>
  let b := deref body w in
  let w1 := emit (EvIndexCall (es_node es) index b) w in
  match es_fault w (es_node es) index b with
  | Some err => (Throw err, emit (EvIndexReturn (Some err)) w1)
  | None =>
      (Ok tt,
       emit (EvIndexReturn None) (set_es_docs (es_docs w ++ [(index, b)]) w1))
  end.

(** ** [SearchModule] *)

Abbreviation ConfigService := (gmap string string).

(** [a || b] on an optional string: undefined and the empty string are
    falsy. *)
Definition js_or (a : option string) (b : string) : string :=
  match a with
  | Some EmptyString | None => b
  | Some s => s
  end.

Record ElasticsearchModuleOptions := mkOptions { node : string }.

(** The [useFactory] of [ElasticsearchModule.registerAsync]. *)
Definition useFactory (configService : ConfigService)
  : ElasticsearchModuleOptions :=
  {| node := js_or (configService !! "ELASTICSEARCH_NODE")
                   "http://localhost:9200" |}.

(** The provider [SearchModule] exports: a client for the factory's node. *)
Definition SearchModule (configService : ConfigService)
  : ElasticsearchService :=
  {| es_node := node (useFactory configService) |}.

(** ** [ActivityLogListener] *)

(** The repository and the CLS service act on the world; the search client
    is the one dependency the handler tests for presence. *)
Record ActivityLogListener := mkListener {
  elasticsearchService : option ElasticsearchService
}.

(** The listener as the module graph builds it: the constructor parameter
    is a required dependency, resolved from [SearchModule]. *)
Definition BroadcastlistenerModule (configService : ConfigService)
  : ActivityLogListener :=
  {| elasticsearchService := Some (SearchModule configService) |}.

(** The two protected blocks of the handler, named after the comments that
    introduce them in the source. *)

(* Save to Database *)
Definition save_to_database (payload : JsArg) : M unit :=
  try_catch
    (cls_run (
       userId ← get_prop payload "userId";
       cls_set "userId" userId;;
       newLog ← repo_create payload;
       repo_save newLog);;
     logger_log "Saved to MariaDB")
    (fun e => logger_error "Failed to save activity log to MariaDB" e).

(* Save to Elasticsearch *)
Definition save_to_elasticsearch (this : ActivityLogListener)
  (payload : JsArg) : M unit :=
  try_catch
    (match elasticsearchService this with
     | Some es =>
         props ← own_props payload;
         timestamp ← Date_now_toISOString;
         body ← alloc (<["timestamp" := PStr timestamp]> props);
         es_index es "activity-logs" body;;
         logger_log "Saved to Elasticsearch"
     | None => mret tt
     end)
    (fun _ => logger_warn "Elasticsearch not available, skipping ES save").

Definition handleLogEvent (this : ActivityLogListener) (payload : JsArg)
  : M unit :=
  userId ← get_prop payload "userId";
  url ← get_prop payload "url";
  logger_log ("Caught log event! User: " +:+ to_string userId +:+
              ", URL: " +:+ to_string url);;
  save_to_database payload;;
  save_to_elasticsearch this payload.

(** ** The delivered record *)

(** Modelled from the spec: the interface [ActivityLogPayload] is declared
    by the producer library; its shape is the inbound payload of the
    external interfaces. *)
Record ActivityLogPayload := mkPayload {
  userId : string;
  url : string;
  processType : string;
  responseTimeMs : Z
}.

(** The object a well-formed record is delivered as. *)
Definition payload_obj (p : ActivityLogPayload) : obj :=
  <["userId" := PStr (userId p)]>
    (<["url" := PStr (url p)]>
       (<["processType" := PStr (processType p)]>
          (<["responseTimeMs" := PNum (responseTimeMs p)]> ∅))).

(** ** Reading the trace *)

Definition is_log_at (lvl : Level) (ev : Event) : bool :=
  match ev with
  | EvLog lvl' _ _ => bool_decide (lvl' = lvl)
  | _ => false
  end.

Definition is_save_call (ev : Event) : bool :=
  match ev with EvSaveCall _ _ => true | _ => false end.

Definition is_index_call (ev : Event) : bool :=
  match ev with EvIndexCall _ _ _ => true | _ => false end.

Definition is_relational (ev : Event) : bool :=
  match ev with
  | EvSaveCall _ _ | EvSql _ | EvSaveReturn _ => true
  | _ => false
  end.

Definition is_search (ev : Event) : bool :=
  match ev with
  | EvIndexCall _ _ _ | EvIndexReturn _ => true
  | _ => false
  end.

Definition is_scope (ev : Event) : bool :=
  match ev with EvClsEnter | EvClsExit => true | _ => false end.

Definition logs_at (lvl : Level) (t : list Event) : list Event :=
  List.filter (is_log_at lvl) t.

Definition save_calls (t : list Event) : list Event :=
  List.filter is_save_call t.

Definition index_calls (t : list Event) : list Event :=
  List.filter is_index_call t.



(** The events a run appended to the trace of the world it started in. *)
Definition new_events (w w' : World) : list Event :=
  drop (length (trace w)) (trace w').

(** The same world with another reading of the store's clock. *)
Definition set_db_clock (t : Z) (w : World) : World :=
  mkWorld (heap w) (cls w) (db_table w) t (db_fault w)
          (es_docs w) (es_fault w) (app_clock w) (trace w).

(** ** The handler on a live payload, in closed form

    The three steps of one delivery as world transformers; the run lemmas
    below show that the handler computes exactly these. *)

Definition receipt (o : obj) : Event :=
  EvLog LLog
    ("Caught log event! User: " +:+
     to_string (default PUndefined (o !! "userId")) +:+
     ", URL: " +:+ to_string (default PUndefined (o !! "url"))) None.

(** Events of the database block: the scope is entered, [save] is called
    with the identity the scope carries, the store answers, the scope is
    left, the outcome is logged. *)
Definition database_events (o : obj) (w : World) : list Event :=
  let e := entity_of o in
  [EvClsEnter; EvSaveCall e (Some (default PUndefined (o !! "userId")))] ++
  match db_fault w e with
  | Some err =>
      [EvSaveReturn (Some err); EvClsExit;
       EvLog LError "Failed to save activity log to MariaDB" (Some err)]
  | None =>
      [EvSql (plan_save e (db_table w) (db_clock w)).1.1;
       EvSaveReturn None; EvClsExit; EvLog LLog "Saved to MariaDB" None]
  end.

Definition after_database (o : obj) (w : World) : World :=
  let newLog := fresh (dom (heap w)) in
  let e := entity_of o in
  match db_fault w e with
  | Some _ =>
      mkWorld (<[newLog := e]> (heap w)) (cls w) (db_table w) (db_clock w)
        (db_fault w) (es_docs w) (es_fault w) (app_clock w)
        (trace w ++ database_events o w)
  | None =>
      let '(_, id, row) := plan_save e (db_table w) (db_clock w) in
      mkWorld (<[newLog := row]> (heap w)) (cls w)
        (<[id := row]> (db_table w)) (db_clock w)
        (db_fault w) (es_docs w) (es_fault w) (app_clock w)
        (trace w ++ database_events o w)
  end.

(** The document sent to the index: the payload's own properties and the
    timestamp of the process clock. *)
Definition search_body (o : obj) (w : World) : obj :=
  <["timestamp" := PStr (toISOString (app_clock w))]> o.

(** Events of the search block: nothing without a client; otherwise the
    index call, its answer and the log of the outcome. *)
Definition elasticsearch_events (this : ActivityLogListener) (o : obj)
  (w : World) : list Event :=
  match elasticsearchService this with
  | None => []
  | Some es =>
      let body := search_body o w in
      EvIndexCall (es_node es) "activity-logs" body ::
      match es_fault w (es_node es) "activity-logs" body with
      | Some err =>
          [EvIndexReturn (Some err);
           EvLog LWarn "Elasticsearch not available, skipping ES save" None]
      | None =>
          [EvIndexReturn None; EvLog LLog "Saved to Elasticsearch" None]
      end
  end.

Definition after_elasticsearch (this : ActivityLogListener) (o : obj)
  (w : World) : World :=
  match elasticsearchService this with
  | None => w
  | Some es =>
      let body := search_body o w in
      let h := <[fresh (dom (heap w)) := body]> (heap w) in
      match es_fault w (es_node es) "activity-logs" body with
      | Some _ =>
          mkWorld h (cls w) (db_table w) (db_clock w) (db_fault w)
            (es_docs w) (es_fault w) (app_clock w)
            (trace w ++ elasticsearch_events this o w)
      | None =>
          mkWorld h (cls w) (db_table w) (db_clock w) (db_fault w)
            (es_docs w ++ [("activity-logs", body)]) (es_fault w)
            (app_clock w)
            (trace w ++ elasticsearch_events this o w)
      end
  end.

(** ** Scenarios

    The record of the README's walk-through, delivered as object 1 of the
    heap, and worlds in which both sinks are healthy, the relational store
    is down, or the search node refuses connections. *)

Definition sample_payload : ActivityLogPayload :=
  mkPayload "user-123" "/api/endpoint" "GET" 42.

Definition query_failed : JsError :=
  mkError "QueryFailedError" "connect ETIMEDOUT".

Definition connection_refused : JsError :=
  mkError "ConnectionError" "connect ECONNREFUSED 127.0.0.1:9200".

Definition world_healthy : World :=
  mkWorld {[ 1%positive := payload_obj sample_payload ]} [] ∅ 1700000000123
    (fun _ => None) [] (fun _ _ _ => None) 1700000000456 [].

Definition world_db_down : World :=
  mkWorld {[ 1%positive := payload_obj sample_payload ]} [] ∅ 1700000000123
    (fun _ => Some query_failed) [] (fun _ _ _ => None) 1700000000456 [].

Definition world_es_down : World :=
  mkWorld {[ 1%positive := payload_obj sample_payload ]} [] ∅ 1700000000123
    (fun _ => None) [] (fun _ _ _ => Some connection_refused)
    1700000000456 [].

(** No [ELASTICSEARCH_NODE] in the environment. *)
Definition config_without_search : ConfigService := ∅.

(** ** Changing the environment, and successive deliveries *)

(** The same world with another health of the search node, or of the
    relational store. *)
Definition set_es_fault (f : string -> string -> obj -> option JsError)
  (w : World) : World :=
  mkWorld (heap w) (cls w) (db_table w) (db_clock w) (db_fault w)
          (es_docs w) f (app_clock w) (trace w).

Definition set_db_fault (f : obj -> option JsError) (w : World) : World :=
  mkWorld (heap w) (cls w) (db_table w) (db_clock w) f
          (es_docs w) (es_fault w) (app_clock w) (trace w).

(** Deliveries that do not overlap: the emitter calls the handler once per
    event, each call starting in the world the previous one left; an error
    raised by one call is that call's result and does not stop the next. *)
Fixpoint deliver_all (this : ActivityLogListener) (payloads : list JsArg)
  (w : World) : list (Result unit) * World :=
  match payloads with
  | [] => ([], w)
  | payload :: rest =>
      let '(r, w1) := handleLogEvent this payload w in
      let '(rs, w2) := deliver_all this rest w1 in
      (r :: rs, w2)
  end.

(** Two records of different users, delivered as objects 1 and 2. *)
Definition other_payload : ActivityLogPayload :=
  mkPayload "user-456" "/api/orders" "POST" 7.

Definition world_two_users : World :=
  mkWorld
    (<[ 2%positive := payload_obj other_payload ]>
       {[ 1%positive := payload_obj sample_payload ]})
    [] ∅ 1700000000123 (fun _ => None) [] (fun _ _ _ => None)
    1700000000456 [].

(** The one [save] call of a delivery, for the delivered object. *)
Definition save_call_for (o : obj) : Event :=
  EvSaveCall (entity_of o) (Some (default PUndefined (o !! "userId"))).


(** An object that is not a well-formed record: no [userId], a property the
    table has no column for, and a [timestamp] of its own. *)
Definition odd_object : obj :=
  <["url" := PStr "/health"]>
    (<["traceId" := PStr "abc"]> (<["timestamp" := PStr "yesterday"]> ∅)).

Definition world_odd : World :=
  mkWorld {[ 1%positive := odd_object ]} [] ∅ 1700000000123
    (fun _ => None) [] (fun _ _ _ => None) 1700000000456 [].

(** ** [AppModule]: connection options read from the environment *)

(** Integer-valued numbers and NaN, the results of [parseInt]. *)
Inductive JsNumber :=
| NaN
| Num (n : Z).

(** Leading white space as [parseInt] skips it.  The environment hands its
    values over as UTF-8 text: besides the one-byte characters TAB, LF, VT,
    FF, CR and SP, the white space and line terminator code points are
    U+00A0, U+1680, U+2000..U+200A, U+2028, U+2029, U+202F, U+205F, U+3000
    and U+FEFF, matched here by their byte sequences. *)
Definition is_ascii_space (c : ascii) : bool :=
  let n := N_of_ascii c in
  ((9 <=? n) && (n <=? 13))%N || (n =? 32)%N.

Definition is_space2 (c1 c2 : ascii) : bool :=
  (N_of_ascii c1 =? 194)%N && (N_of_ascii c2 =? 160)%N.

Definition is_space3 (c1 c2 c3 : ascii) : bool :=
  let n1 := N_of_ascii c1 in
  let n2 := N_of_ascii c2 in
  let n3 := N_of_ascii c3 in
  ((n1 =? 225) && (n2 =? 154) && (n3 =? 128))%N
  || ((n1 =? 226) && (n2 =? 128) &&
      (((128 <=? n3) && (n3 <=? 138)) || (n3 =? 168) || (n3 =? 169)
       || (n3 =? 175)))%N
  || ((n1 =? 226) && (n2 =? 129) && (n3 =? 159))%N
  || ((n1 =? 227) && (n2 =? 128) && (n3 =? 128))%N
  || ((n1 =? 239) && (n2 =? 187) && (n3 =? 191))%N.

Fixpoint trim_start (s : string) : string :=
  match s with
  | EmptyString => s
  | String c1 r1 =>
      if is_ascii_space c1 then trim_start r1
      else
        match r1 with
        | EmptyString => s
        | String c2 r2 =>
            if is_space2 c1 c2 then trim_start r2
            else
              match r2 with
              | EmptyString => s
              | String c3 r3 =>
                  if is_space3 c1 c2 c3 then trim_start r3 else s
              end
        end
  end.

(** The value of a character as a digit of the radix, if it is one. *)
Definition digit_value (radix : Z) (c : ascii) : option Z :=
  let n := Z.of_N (N_of_ascii c) in
  let v :=
    if (48 <=? n) && (n <=? 57) then Some (n - 48)
    else if (97 <=? n) && (n <=? 122) then Some (n - 87)
    else if (65 <=? n) && (n <=? 90) then Some (n - 55)
    else None in
  match v with
  | Some d => if d <? radix then Some d else None
  | None => None
  end.

(** The longest prefix of digits, read left to right; [None] while no digit
    has been read. *)
Fixpoint parse_digits (radix : Z) (s : string) (acc : option Z) : option Z :=
  match s with
  | EmptyString => acc
  | String c rest =>
      match digit_value radix c with
      | Some d => parse_digits radix rest (Some (radix * default 0 acc + d))
      | None => acc
      end
  end.

(** [parseInt(string)] without radix: skip white space, take a sign, take
    a [0x] or [0X] prefix as radix 16 and otherwise read in radix 10, stop
    at the first character that is not a digit; NaN when no digit was read.
    The result is the mathematical integer, which the JavaScript number
    equals as long as it is below 2^53 in magnitude. *)
Definition parseInt (s : string) : JsNumber :=
  let s1 := trim_start s in
  let '(sign, s2) :=
    match s1 with
    | String "-" r => (-1, r)
    | String "+" r => (1, r)
    | _ => (1, s1)
    end in
  let '(radix, s3) :=
    match s2 with
    | String "0" (String "x" r) => (16, r)
    | String "0" (String "X" r) => (16, r)
    | _ => (10, s2)
    end in
  match parse_digits radix s3 None with
  | Some n => Num (sign * n)
  | None => NaN
  end.

(** Not the start of more decimal digits. *)
Definition ends_number (tail : string) : Prop :=
  match tail with
  | EmptyString => True
  | String c _ => digit_value 10 c = None
  end.

(** [process.env]: a variable that is not set reads as undefined. *)
Abbreviation ProcessEnv := (gmap string string).

(** The options [AppModule] passes to [TypeOrmModule.forRoot]. *)
Record TypeOrmModuleOptions := mkTypeOrmOptions {
  orm_type : string;
  orm_host : option string;
  orm_port : JsNumber;
  orm_username : option string;
  orm_password : option string;
  orm_database : option string;
  orm_synchronize : bool;
  orm_timezone : string
}.

Definition AppModule_TypeOrm (env : ProcessEnv) : TypeOrmModuleOptions :=
  {| orm_type := "mariadb";
     orm_host := env !! "DB_HOST";
     orm_port := parseInt (js_or (env !! "DB_PORT") "");
     orm_username := env !! "DB_USERNAME";
     orm_password := env !! "DB_PASSWORD";
     orm_database := env !! "DB_NAME";
     orm_synchronize := true;
     orm_timezone := "+08:00" |}.

(** The options [AppModule] passes to [LogModule.forRoot]. *)
Record LogModuleOptions := mkLogOptions {
  redis_host : string;
  redis_port : JsNumber;
  broadcast : bool
}.

Definition AppModule_LogModule (env : ProcessEnv) : LogModuleOptions :=
  {| redis_host := js_or (env !! "REDIS_HOST") "";
     redis_port := parseInt (js_or (env !! "REDIS_PORT") "");
     broadcast := true |}.

(** * Properties *)

(** ** Running the handler *)

Lemma World_eq (w1 w2 : World) :
  heap w1 = heap w2 -> cls w1 = cls w2 -> db_table w1 = db_table w2 ->
  db_clock w1 = db_clock w2 -> db_fault w1 = db_fault w2 ->
  es_docs w1 = es_docs w2 -> es_fault w1 = es_fault w2 ->
  app_clock w1 = app_clock w2 -> trace w1 = trace w2 ->
  w1 = w2.
Proof. destruct w1, w2; cbn; intros; subst; reflexivity. Qed.

(** Two runs end in the same world: compare field by field. *)
Ltac world_eq :=
  f_equal; apply World_eq;
  cbn -[toISOString plan_save entity_of];
  rewrite <- ?app_assoc; try reflexivity.

Lemma fresh_loc_not_live (h : gmap loc obj) l o :
  h !! l = Some o -> fresh (dom h) <> l.
Proof.
  intros Hl Heq. apply (is_fresh (dom h)).
  rewrite Heq. apply elem_of_dom. eauto.
Qed.

Lemma deref_live l o w : heap w !! l = Some o -> deref l w = o.
Proof. unfold deref. intros ->. reflexivity. Qed.

Lemma save_to_database_run l o w :
  heap w !! l = Some o ->
  save_to_database (JObject l) w = (Ok tt, after_database o w).
Proof.
  intros Hl.
  unfold save_to_database, after_database, database_events, try_catch, cls_run.
  unfold repo_create, own_props, get_prop, logger_log, logger_error, modify.
  unfold mbind, M_bind, gets, cls_set, alloc, repo_save.
  cbn -[plan_save entity_of].
  rewrite !(deref_live l o) by exact Hl.
  unfold deref. cbn -[plan_save entity_of].
  rewrite lookup_insert_eq. cbn -[plan_save entity_of].
  unfold cls_get; cbn -[plan_save entity_of].
  rewrite lookup_insert_eq.
  destruct (db_fault w (entity_of o)) as [err|].
  - world_eq.
  - destruct (plan_save _ _ _) as [[stmt id] row].
    world_eq. apply insert_insert_eq.
Qed.

Lemma save_to_elasticsearch_run this l o w :
  heap w !! l = Some o ->
  save_to_elasticsearch this (JObject l) w =
  (Ok tt, after_elasticsearch this o w).
Proof.
  intros Hl.
  unfold save_to_elasticsearch, after_elasticsearch, elasticsearch_events,
    try_catch.
  destruct (elasticsearchService this) as [es|]; [|reflexivity].
  unfold mbind, M_bind, own_props, gets, Date_now_toISOString, alloc, es_index,
    logger_log, logger_warn, modify, search_body.
  cbn -[toISOString].
  rewrite !(deref_live l o) by exact Hl.
  unfold deref. cbn -[toISOString]. rewrite lookup_insert_eq.
  cbn -[toISOString].
  destruct (es_fault _ _ _ _) as [err|]; world_eq.
Qed.

Lemma after_database_live l o o' w :
  heap w !! l = Some o -> heap (after_database o' w) !! l = Some o.
Proof.
  intros Hl. unfold after_database.
  destruct (db_fault _ _); [|destruct (plan_save _ _ _) as [[? ?] ?]]; cbn;
    rewrite lookup_insert_ne; eauto using fresh_loc_not_live.
Qed.

Lemma after_elasticsearch_live this l o o' w :
  heap w !! l = Some o -> heap (after_elasticsearch this o' w) !! l = Some o.
Proof.
  intros Hl. unfold after_elasticsearch.
  destruct (elasticsearchService this); [|exact Hl].
  destruct (es_fault _ _ _ _); cbn;
    rewrite lookup_insert_ne; eauto using fresh_loc_not_live.
Qed.

(** One delivery of a live object: the receipt is logged, then the database
    block runs, then the search block, and the handler returns. *)
Lemma handleLogEvent_run this l o w :
  heap w !! l = Some o ->
  handleLogEvent this (JObject l) w =
  (Ok tt, after_elasticsearch this o (after_database o (emit (receipt o) w))).
Proof.
  intros Hl. unfold handleLogEvent.
  unfold mbind at 1 2 3 4, M_bind, get_prop, gets, logger_log, modify.
  rewrite !(deref_live l o) by exact Hl.
  fold (receipt o).
  rewrite (save_to_database_run l o) by exact Hl.
  apply save_to_elasticsearch_run. apply after_database_live. exact Hl.
Qed.

(** ** What each block leaves untouched *)

Ltac database_cases :=
  unfold after_database;
  destruct (db_fault _ _); [|destruct (plan_save _ _ _) as [[? ?] ?]].

Ltac elasticsearch_cases :=
  unfold after_elasticsearch;
  destruct (elasticsearchService _); [destruct (es_fault _ _ _ _)|].

Lemma after_database_cls o w : cls (after_database o w) = cls w.
Proof. database_cases; reflexivity. Qed.

Lemma after_database_es_docs o w : es_docs (after_database o w) = es_docs w.
Proof. database_cases; reflexivity. Qed.

Lemma after_database_es_fault o w : es_fault (after_database o w) = es_fault w.
Proof. database_cases; reflexivity. Qed.

Lemma after_database_app_clock o w :
  app_clock (after_database o w) = app_clock w.
Proof. database_cases; reflexivity. Qed.

Lemma after_database_db_fault o w : db_fault (after_database o w) = db_fault w.
Proof. database_cases; reflexivity. Qed.

Lemma after_database_db_clock o w : db_clock (after_database o w) = db_clock w.
Proof. database_cases; reflexivity. Qed.

Lemma after_database_trace o w :
  trace (after_database o w) = trace w ++ database_events o w.
Proof. database_cases; reflexivity. Qed.

Lemma after_elasticsearch_cls this o w :
  cls (after_elasticsearch this o w) = cls w.
Proof. elasticsearch_cases; reflexivity. Qed.

Lemma after_elasticsearch_db_table this o w :
  db_table (after_elasticsearch this o w) = db_table w.
Proof. elasticsearch_cases; reflexivity. Qed.

Lemma after_elasticsearch_db_fault this o w :
  db_fault (after_elasticsearch this o w) = db_fault w.
Proof. elasticsearch_cases; reflexivity. Qed.

Lemma after_elasticsearch_es_fault this o w :
  es_fault (after_elasticsearch this o w) = es_fault w.
Proof. elasticsearch_cases; reflexivity. Qed.

Lemma after_elasticsearch_db_clock this o w :
  db_clock (after_elasticsearch this o w) = db_clock w.
Proof. elasticsearch_cases; reflexivity. Qed.

Lemma after_elasticsearch_app_clock this o w :
  app_clock (after_elasticsearch this o w) = app_clock w.
Proof. elasticsearch_cases; reflexivity. Qed.

Lemma after_elasticsearch_trace this o w :
  trace (after_elasticsearch this o w) = trace w ++ elasticsearch_events this o w.
Proof.
  unfold after_elasticsearch, elasticsearch_events.
  destruct (elasticsearchService _); [destruct (es_fault _ _ _ _)|]; cbn;
    rewrite ?app_nil_r; reflexivity.
Qed.

Create Rewrite HintDb frame.

#[global] Hint Rewrite
  after_database_cls after_database_es_docs after_database_es_fault
  after_database_app_clock after_database_db_fault after_database_db_clock
  after_elasticsearch_cls after_elasticsearch_db_table
  after_elasticsearch_db_fault after_elasticsearch_es_fault
  after_elasticsearch_db_clock after_elasticsearch_app_clock : frame.

(** The search block only reads the search sink's health and the process
    clock, neither of which the database block changes. *)
Lemma elasticsearch_events_after_database this o o' w :
  elasticsearch_events this o (after_database o' w) =
  elasticsearch_events this o w.
Proof.
  unfold elasticsearch_events, search_body.
  rewrite after_database_es_fault, after_database_app_clock. reflexivity.
Qed.

(** The complete trace of one delivery. *)
Lemma handleLogEvent_trace this l o w :
  heap w !! l = Some o ->
  trace (handleLogEvent this (JObject l) w).2 =
  trace w ++
  receipt o :: database_events o w ++ elasticsearch_events this o w.
Proof.
  intros Hl. rewrite (handleLogEvent_run this l o w Hl). cbn [snd].
  rewrite after_elasticsearch_trace, elasticsearch_events_after_database.
  rewrite after_database_trace. cbn [trace emit].
  rewrite <- !app_assoc. reflexivity.
Qed.

Lemma handleLogEvent_new_events this l o w :
  heap w !! l = Some o ->
  new_events w (handleLogEvent this (JObject l) w).2 =
  receipt o :: database_events o w ++ elasticsearch_events this o w.
Proof.
  intros Hl. unfold new_events.
  rewrite (handleLogEvent_trace this l o w Hl).
  apply drop_app_length.
Qed.

Lemma handleLogEvent_db_table this l o w :
  heap w !! l = Some o ->
  db_table (handleLogEvent this (JObject l) w).2 =
  db_table (after_database o w).
Proof.
  intros Hl. rewrite (handleLogEvent_run this l o w Hl). cbn [snd].
  rewrite after_elasticsearch_db_table.
  unfold after_database. cbn [emit db_fault db_table db_clock].
  destruct (db_fault _ _); [|destruct (plan_save _ _ _) as [[? ?] ?]];
    reflexivity.
Qed.

(** The documents one delivery adds to the index. *)
Lemma handleLogEvent_es_docs this l o w :
  heap w !! l = Some o ->
  es_docs (handleLogEvent this (JObject l) w).2 =
  es_docs w ++
  match elasticsearchService this with
  | Some es =>
      match es_fault w (es_node es) "activity-logs" (search_body o w) with
      | Some _ => []
      | None => [("activity-logs", search_body o w)]
      end
  | None => []
  end.
Proof.
  intros Hl. rewrite (handleLogEvent_run this l o w Hl). cbn [snd].
  unfold after_elasticsearch.
  destruct (elasticsearchService this) as [es|].
  - rewrite after_database_es_fault.
    change (search_body o (after_database o (emit (receipt o) w)))
      with (<["timestamp" :=
               PStr (toISOString
                       (app_clock (after_database o (emit (receipt o) w))))]> o).
    rewrite after_database_app_clock. cbn [es_fault app_clock emit].
    fold (search_body o w).
    destruct (es_fault w _ _ _); cbn [es_docs];
      rewrite after_database_es_docs, ?app_nil_r; reflexivity.
  - rewrite after_database_es_docs, app_nil_r. reflexivity.
Qed.

(** ** Error containment *)

(** A protected block whose catch clause only logs cannot throw, whatever
    its body does. *)
Lemma try_catch_never_throws (body : M unit) (handler : JsError -> M unit) w :
  (forall e w0, exists w', handler e w0 = (Ok tt, w')) ->
  exists w', try_catch body handler w = (Ok tt, w').
Proof.
  intros Hh. unfold try_catch.
  destruct (body w) as [[[]|e] w0]; eauto.
Qed.

Lemma save_to_database_never_throws payload w :
  exists w', save_to_database payload w = (Ok tt, w').
Proof.
  apply try_catch_never_throws. intros e w0.
  unfold logger_error, modify. eauto.
Qed.

Lemma save_to_elasticsearch_never_throws this payload w :
  exists w', save_to_elasticsearch this payload w = (Ok tt, w').
Proof.
  apply try_catch_never_throws. intros e w0.
  unfold logger_warn, modify. eauto.
Qed.

(** C1. For every non-null delivered payload the entry point returns
    normally, whatever the health of the relational store, whatever the
    health of the search node, and whether or not a search client is
    present: the receipt log can read the payload, and each write sits in a
    block whose catch clause only logs. *)
Theorem handleLogEvent_never_raises this payload w :
  payload <> JUndefined ->
  payload <> JNull ->
  exists w', handleLogEvent this payload w = (Ok tt, w').
Proof.
  intros Hu Hn. destruct payload as [| |l]; try congruence.
  unfold handleLogEvent.
  unfold mbind at 1 2 3 4, M_bind, get_prop, gets, logger_log, modify.
  destruct (save_to_database_never_throws (JObject l)
              (emit (EvLog LLog
                 ("Caught log event! User: " +:+
                  to_string (default PUndefined (deref l w !! "userId")) +:+
                  ", URL: " +:+
                  to_string (default PUndefined (deref l w !! "url"))) None) w))
    as [w1 ->].
  apply save_to_elasticsearch_never_throws.
Qed.

Lemma handleLogEvent_never_raises_witness :
  JObject 1 <> JUndefined /\ JObject 1 <> JNull /\
  exists w',
    handleLogEvent (BroadcastlistenerModule config_without_search)
      (JObject 1) world_db_down = (Ok tt, w').
Proof.
  split; [discriminate|]. split; [discriminate|].
  apply handleLogEvent_never_raises; discriminate.
Defined.

(** C9. A payload that is undefined or null makes the entry point raise a
    TypeError: the dereference in the receipt log happens before either
    protected block, so nothing is logged and nothing is written. *)
Theorem handleLogEvent_nullish_payload_raises this payload w :
  payload = JUndefined \/ payload = JNull ->
  exists e,
    handleLogEvent this payload w = (Throw e, w) /\
    err_name e = "TypeError".
Proof.
  intros [-> | ->]; eexists; split; reflexivity.
Qed.

Lemma handleLogEvent_nullish_payload_raises_witness :
  exists e,
    handleLogEvent (BroadcastlistenerModule config_without_search)
      JNull world_healthy = (Throw e, world_healthy) /\
    err_name e = "TypeError".
Proof.
  apply handleLogEvent_nullish_payload_raises. right. reflexivity.
Defined.

(** C3. When the store rejects the write with any error, the error is
    caught at the database block: the handler returns normally, no row is
    created, exactly one log at error severity is emitted (carrying that
    error), and, when a search client is present, the index call is still
    made afterwards. *)
Theorem relational_failure_is_contained this l o w err :
  heap w !! l = Some o ->
  db_fault w (entity_of o) = Some err ->
  let r := handleLogEvent this (JObject l) w in
  r.1 = Ok tt /\
  db_table r.2 = db_table w /\
  logs_at LError (new_events w r.2) =
    [EvLog LError "Failed to save activity log to MariaDB" (Some err)] /\
  exists before after,
    new_events w r.2 =
      before ++
      [EvSaveReturn (Some err); EvClsExit;
       EvLog LError "Failed to save activity log to MariaDB" (Some err)] ++
      after /\
    match elasticsearchService this with
    | Some es =>
        exists body rest,
          after = EvIndexCall (es_node es) "activity-logs" body :: rest
    | None => after = []
    end.
Proof.
  intros Hl Hfault r. subst r.
  rewrite (handleLogEvent_db_table this l o w Hl).
  rewrite (handleLogEvent_new_events this l o w Hl).
  rewrite (handleLogEvent_run this l o w Hl). cbn [fst].
  unfold after_database, database_events. rewrite Hfault.
  cbn [db_table].
  repeat split.
  - unfold elasticsearch_events.
    destruct (elasticsearchService this) as [es|]; [|reflexivity].
    destruct (es_fault _ _ _ _); reflexivity.
  - exists [receipt o; EvClsEnter;
            EvSaveCall (entity_of o)
              (Some (default PUndefined (o !! "userId")))],
           (elasticsearch_events this o w).
    split; [reflexivity|].
    unfold elasticsearch_events.
    destruct (elasticsearchService this) as [es|]; [|reflexivity].
    eauto.
Qed.

Lemma relational_failure_is_contained_witness :
  let this := BroadcastlistenerModule config_without_search in
  let r := handleLogEvent this (JObject 1) world_db_down in
  r.1 = Ok tt /\
  db_table r.2 = db_table world_db_down /\
  logs_at LError (new_events world_db_down r.2) =
    [EvLog LError "Failed to save activity log to MariaDB"
       (Some query_failed)] /\
  exists before after,
    new_events world_db_down r.2 =
      before ++
      [EvSaveReturn (Some query_failed); EvClsExit;
       EvLog LError "Failed to save activity log to MariaDB"
         (Some query_failed)] ++
      after /\
    match elasticsearchService this with
    | Some es =>
        exists body rest,
          after = EvIndexCall (es_node es) "activity-logs" body :: rest
    | None => after = []
    end.
Proof.
  apply (relational_failure_is_contained _ 1%positive
           (payload_obj sample_payload) world_db_down query_failed);
    reflexivity.
Defined.

(** C4. With a search client present, when the index call fails with any
    error, the error is swallowed: the handler returns normally, exactly
    one log at warning severity is emitted, no log at error severity is
    added, no document is stored, and the relational outcome (table, and
    everything traced before the index call) is what it is without any
    search client. *)
Theorem search_failure_is_contained es l o w err :
  heap w !! l = Some o ->
  es_fault w (es_node es) "activity-logs" (search_body o w) = Some err ->
  let r := handleLogEvent (mkListener (Some es)) (JObject l) w in
  let r0 := handleLogEvent (mkListener None) (JObject l) w in
  r.1 = Ok tt /\
  logs_at LWarn (new_events w r.2) =
    [EvLog LWarn "Elasticsearch not available, skipping ES save" None] /\
  logs_at LError (new_events w r.2) = logs_at LError (new_events w r0.2) /\
  LWarn <> LError /\
  db_table r.2 = db_table r0.2 /\
  es_docs r.2 = es_docs w /\
  trace r.2 =
    trace r0.2 ++
    [EvIndexCall (es_node es) "activity-logs" (search_body o w);
     EvIndexReturn (Some err);
     EvLog LWarn "Elasticsearch not available, skipping ES save" None].
Proof.
  intros Hl Hfault r r0. subst r r0.
  rewrite !(handleLogEvent_db_table _ l o w Hl).
  rewrite !(handleLogEvent_new_events _ l o w Hl).
  rewrite !(handleLogEvent_trace _ l o w Hl).
  rewrite (handleLogEvent_es_docs _ l o w Hl).
  rewrite (handleLogEvent_run (mkListener (Some es)) l o w Hl). cbn [fst].
  unfold elasticsearch_events at 1 2 3 4 5. cbn [elasticsearchService].
  rewrite Hfault, app_nil_r.
  assert (Hrel : forall lvl, lvl <> LLog ->
            logs_at lvl (receipt o :: database_events o w) =
            logs_at lvl (database_events o w)).
  { intros lvl Hlvl. unfold logs_at. cbn. rewrite bool_decide_eq_false_2; auto. }
  assert (Hw : logs_at LWarn (database_events o w) = []).
  { unfold database_events.
    destruct (db_fault _ _); [|destruct (plan_save _ _ _) as [[? ?] ?]];
      reflexivity. }
  repeat split.
  - change (receipt o :: database_events o w ++ ?t)
      with ((receipt o :: database_events o w) ++ t).
    unfold logs_at in *. rewrite List.filter_app, Hrel, Hw by discriminate.
    reflexivity.
  - change (receipt o :: database_events o w ++ ?t)
      with ((receipt o :: database_events o w) ++ t).
    unfold logs_at. rewrite List.filter_app. cbn. apply app_nil_r.
  - discriminate.
  - apply app_nil_r.
  - cbn. rewrite <- !app_assoc. reflexivity.
Qed.

Lemma search_failure_is_contained_witness :
  let es := SearchModule config_without_search in
  let o := payload_obj sample_payload in
  let w := world_es_down in
  let r := handleLogEvent (mkListener (Some es)) (JObject 1) w in
  let r0 := handleLogEvent (mkListener None) (JObject 1) w in
  r.1 = Ok tt /\
  logs_at LWarn (new_events w r.2) =
    [EvLog LWarn "Elasticsearch not available, skipping ES save" None] /\
  logs_at LError (new_events w r.2) = logs_at LError (new_events w r0.2) /\
  LWarn <> LError /\
  db_table r.2 = db_table r0.2 /\
  es_docs r.2 = es_docs w /\
  trace r.2 =
    trace r0.2 ++
    [EvIndexCall (es_node es) "activity-logs" (search_body o w);
     EvIndexReturn (Some connection_refused);
     EvLog LWarn "Elasticsearch not available, skipping ES save" None].
Proof.
  apply (search_failure_is_contained (SearchModule config_without_search)
           1%positive (payload_obj sample_payload) world_es_down
           connection_refused);
    reflexivity.
Defined.

(** ** The identity scope and the order of the writes *)

(** C5. For every delivered record the trace of the delivery is: receipt,
    scope entered, [save] called while the scope carries the value of
    [payload.userId] (the record's userId for a well-formed record), the
    store's answer (failure, or statement and success), scope left, and
    only then whatever follows.  Nothing after the exit belongs
    to the relational write or to the scope, so the scope is closed on both
    exits of the write and before any search event; the context stack ends
    as it began. *)
Theorem identity_scope_brackets_relational_write this l o w :
  heap w !! l = Some o ->
  let r := handleLogEvent this (JObject l) w in
  cls r.2 = cls w /\
  (forall p, o = payload_obj p ->
     default PUndefined (o !! "userId") = PStr (userId p)) /\
  exists answer rest,
    new_events w r.2 =
      [receipt o; EvClsEnter;
       EvSaveCall (entity_of o) (Some (default PUndefined (o !! "userId")))] ++
      answer ++ [EvClsExit] ++ rest /\
    ((exists err, answer = [EvSaveReturn (Some err)]) \/
     (exists stmt, answer = [EvSql stmt; EvSaveReturn None])) /\
    Forall (fun ev => is_scope ev = false /\ is_relational ev = false) rest /\
    index_calls (new_events w r.2) = index_calls rest.
Proof.
  intros Hl r. subst r.
  rewrite (handleLogEvent_new_events this l o w Hl).
  rewrite (handleLogEvent_run this l o w Hl). cbn [snd].
  autorewrite with frame. split; [reflexivity|].
  split; [intros p ->; unfold payload_obj; by simplify_map_eq|].
  assert (Hs : Forall (fun ev => is_scope ev = false /\ is_relational ev = false)
                 (elasticsearch_events this o w)).
  { unfold elasticsearch_events.
    destruct (elasticsearchService this); [destruct (es_fault _ _ _ _)|];
      repeat constructor. }
  unfold database_events.
  destruct (db_fault w (entity_of o)) as [err|].
  - exists [EvSaveReturn (Some err)],
      (EvLog LError "Failed to save activity log to MariaDB" (Some err)
       :: elasticsearch_events this o w).
    repeat split; eauto.
  - exists [EvSql (plan_save (entity_of o) (db_table w) (db_clock w)).1.1;
            EvSaveReturn None],
      (EvLog LLog "Saved to MariaDB" None :: elasticsearch_events this o w).
    repeat split; eauto.
Qed.

Lemma identity_scope_brackets_relational_write_witness :
  let this := BroadcastlistenerModule config_without_search in
  let o := payload_obj sample_payload in
  let w := world_db_down in
  let r := handleLogEvent this (JObject 1) w in
  cls r.2 = cls w /\
  (forall p, o = payload_obj p ->
     default PUndefined (o !! "userId") = PStr (userId p)) /\
  exists answer rest,
    new_events w r.2 =
      [receipt o; EvClsEnter;
       EvSaveCall (entity_of o) (Some (default PUndefined (o !! "userId")))] ++
      answer ++ [EvClsExit] ++ rest /\
    ((exists err, answer = [EvSaveReturn (Some err)]) \/
     (exists stmt, answer = [EvSql stmt; EvSaveReturn None])) /\
    Forall (fun ev => is_scope ev = false /\ is_relational ev = false) rest /\
    index_calls (new_events w r.2) = index_calls rest.
Proof.
  apply (identity_scope_brackets_relational_write _ 1%positive
           (payload_obj sample_payload) world_db_down).
  reflexivity.
Defined.

(** C6. Within one delivery the events split into a relational part
    followed by a search part: the relational part holds the one [save]
    call and, after it, its answer, and holds no search event; the search
    part holds no relational event and at most one index call.  The index
    call therefore never precedes or overlaps the relational write. *)
Theorem writes_are_sequential this l o w :
  heap w !! l = Some o ->
  let evs := new_events w (handleLogEvent this (JObject l) w).2 in
  exists relational search,
    evs = relational ++ search /\
    (exists a entity identity b failure c,
       relational =
         a ++ [EvSaveCall entity identity] ++ b ++
         [EvSaveReturn failure] ++ c) /\
    Forall (fun ev => is_search ev = false) relational /\
    Forall (fun ev => is_relational ev = false) search /\
    length (save_calls evs) = 1%nat /\
    (length (index_calls evs) <= 1)%nat.
Proof.
  intros Hl evs. subst evs.
  rewrite (handleLogEvent_new_events this l o w Hl).
  exists (receipt o :: database_events o w), (elasticsearch_events this o w).
  assert (Hs : Forall (fun ev => is_relational ev = false)
                 (elasticsearch_events this o w) /\
               save_calls (elasticsearch_events this o w) = [] /\
               (length (index_calls (elasticsearch_events this o w)) <= 1)%nat).
  { unfold elasticsearch_events.
    destruct (elasticsearchService this); [destruct (es_fault _ _ _ _)|];
      cbn; repeat split; repeat constructor. }
  destruct Hs as (Hs1 & Hs2 & Hs3).
  change (receipt o :: database_events o w ++ elasticsearch_events this o w)
    with ((receipt o :: database_events o w) ++ elasticsearch_events this o w).
  unfold save_calls, index_calls in *. rewrite !List.filter_app, !length_app.
  rewrite Hs2. unfold database_events.
  destruct (db_fault w (entity_of o)) as [err|]; cbn [app].
  - repeat split; auto.
    + exists [receipt o; EvClsEnter], (entity_of o),
        (Some (default PUndefined (o !! "userId"))), [], (Some err),
        [EvClsExit;
         EvLog LError "Failed to save activity log to MariaDB" (Some err)].
      reflexivity.
    + repeat constructor.
  - repeat split; auto.
    + exists [receipt o; EvClsEnter], (entity_of o),
        (Some (default PUndefined (o !! "userId"))),
        [EvSql (plan_save (entity_of o) (db_table w) (db_clock w)).1.1],
        None, [EvClsExit; EvLog LLog "Saved to MariaDB" None].
      reflexivity.
    + repeat constructor.
Qed.

Lemma writes_are_sequential_witness :
  let w := world_healthy in
  let evs :=
    new_events w
      (handleLogEvent (BroadcastlistenerModule config_without_search)
         (JObject 1) w).2 in
  exists relational search,
    evs = relational ++ search /\
    (exists a entity identity b failure c,
       relational =
         a ++ [EvSaveCall entity identity] ++ b ++
         [EvSaveReturn failure] ++ c) /\
    Forall (fun ev => is_search ev = false) relational /\
    Forall (fun ev => is_relational ev = false) search /\
    length (save_calls evs) = 1%nat /\
    (length (index_calls evs) <= 1)%nat.
Proof.
  apply (writes_are_sequential _ 1%positive (payload_obj sample_payload)).
  reflexivity.
Defined.

(** ** The search document *)

Lemma is_digit_digit n : is_digit (digit n) = true.
Proof.
  unfold digit.
  pose proof (Z.mod_pos_bound n 10 ltac:(lia)) as Hk.
  assert (Hc : n mod 10 = 0 \/ n mod 10 = 1 \/ n mod 10 = 2 \/ n mod 10 = 3 \/
               n mod 10 = 4 \/ n mod 10 = 5 \/ n mod 10 = 6 \/ n mod 10 = 7 \/
               n mod 10 = 8 \/ n mod 10 = 9) by lia.
  repeat destruct Hc as [-> | Hc]; try rewrite Hc; reflexivity.
Qed.

(** Whatever the instant, [toISOString] prints one of the ISO-8601
    layouts. *)
Lemma toISOString_is_iso8601 t : is_iso8601 (toISOString t) = true.
Proof.
  unfold toISOString, is_iso8601.
  destruct (civil_from_days (Day t)) as [[y m] d].
  unfold year_string.
  destruct ((0 <=? y) && (y <=? 9999)); [|destruct (y <? 0)];
    lazy -[is_digit digit Z.div Z.modulo Z.opp TimeWithinDay];
    rewrite !is_digit_digit; reflexivity.
Qed.

Example toISOString_epoch : toISOString 0 = "1970-01-01T00:00:00.000Z".
Proof. reflexivity. Qed.

Example toISOString_leap_day :
  toISOString 951868799999 = "2000-02-29T23:59:59.999Z".
Proof. reflexivity. Qed.

Example toISOString_before_epoch :
  toISOString (-1) = "1969-12-31T23:59:59.999Z".
Proof. reflexivity. Qed.

Example toISOString_latest :
  toISOString 8640000000000000 = "+275760-09-13T00:00:00.000Z".
Proof. reflexivity. Qed.

Lemma payload_obj_dom p :
  dom (payload_obj p) =
  ({["userId"; "url"; "processType"; "responseTimeMs"]} : gset string).
Proof.
  unfold payload_obj. rewrite !dom_insert_L, dom_empty_L. set_solver.
Qed.

(** The store's clock plays no part in what is indexed. *)
Lemma es_docs_ignore_db_clock this l o w t :
  heap w !! l = Some o ->
  es_docs (handleLogEvent this (JObject l) (set_db_clock t w)).2 =
  es_docs (handleLogEvent this (JObject l) w).2.
Proof.
  intros Hl.
  rewrite (handleLogEvent_es_docs this l o (set_db_clock t w)) by exact Hl.
  rewrite (handleLogEvent_es_docs this l o w Hl). reflexivity.
Qed.

(** C7. When a delivered record is indexed, exactly one document is added,
    to the index [activity-logs]; its properties are the four inbound
    fields with the payload's values, plus [timestamp]; the timestamp is
    the ISO-8601 rendering of the process clock at index time, and the
    document is the same whatever the relational store's clock reads. *)
Theorem search_document_contents es l p w :
  heap w !! l = Some (payload_obj p) ->
  es_fault w (es_node es) "activity-logs" (search_body (payload_obj p) w)
    = None ->
  let this := mkListener (Some es) in
  let r := handleLogEvent this (JObject l) w in
  exists doc ts,
    es_docs r.2 = es_docs w ++ [("activity-logs", doc)] /\
    dom doc =
      ({["userId"; "url"; "processType"; "responseTimeMs"; "timestamp"]}
         : gset string) /\
    doc !! "userId" = Some (PStr (userId p)) /\
    doc !! "url" = Some (PStr (url p)) /\
    doc !! "processType" = Some (PStr (processType p)) /\
    doc !! "responseTimeMs" = Some (PNum (responseTimeMs p)) /\
    doc !! "timestamp" = Some (PStr ts) /\
    ts = toISOString (app_clock w) /\
    is_iso8601 ts = true /\
    forall t,
      es_docs (handleLogEvent this (JObject l) (set_db_clock t w)).2 =
      es_docs r.2.
Proof.
  intros Hl Hok this r. subst this r.
  exists (search_body (payload_obj p) w), (toISOString (app_clock w)).
  rewrite (handleLogEvent_es_docs _ l _ w Hl). cbn [elasticsearchService].
  rewrite Hok.
  split; [reflexivity|].
  split.
  { unfold search_body. rewrite dom_insert_L, payload_obj_dom. set_solver. }
  repeat split; try (unfold search_body, payload_obj; by simplify_map_eq).
  - apply toISOString_is_iso8601.
  - intros t.
    rewrite (es_docs_ignore_db_clock _ l (payload_obj p) w t Hl).
    rewrite (handleLogEvent_es_docs _ l _ w Hl). cbn [elasticsearchService].
    rewrite Hok. reflexivity.
Qed.

Lemma search_document_contents_witness :
  let es := SearchModule config_without_search in
  let p := sample_payload in
  let w := world_healthy in
  let this := mkListener (Some es) in
  let r := handleLogEvent this (JObject 1) w in
  exists doc ts,
    es_docs r.2 = es_docs w ++ [("activity-logs", doc)] /\
    dom doc =
      ({["userId"; "url"; "processType"; "responseTimeMs"; "timestamp"]}
         : gset string) /\
    doc !! "userId" = Some (PStr (userId p)) /\
    doc !! "url" = Some (PStr (url p)) /\
    doc !! "processType" = Some (PStr (processType p)) /\
    doc !! "responseTimeMs" = Some (PNum (responseTimeMs p)) /\
    doc !! "timestamp" = Some (PStr ts) /\
    ts = toISOString (app_clock w) /\
    is_iso8601 ts = true /\
    forall t,
      es_docs (handleLogEvent this (JObject 1) (set_db_clock t w)).2 =
      es_docs r.2.
Proof.
  apply (search_document_contents (SearchModule config_without_search)
           1%positive sample_payload world_healthy);
    reflexivity.
Defined.

(** In the healthy scenario the row is stamped by the store's clock and the
    document by the process clock: the two instants differ. *)
Example timestamps_may_differ :
  let r :=
    handleLogEvent (BroadcastlistenerModule config_without_search)
      (JObject 1) world_healthy in
  (fun row => row !! "timestamp") <$> db_table r.2 !! "0"
    = Some (Some (PNum 1700000000123)) /\
  (fun d => d.2 !! "timestamp") <$> es_docs r.2
    = [Some (PStr "2023-11-14T22:13:20.456Z")] /\
  toISOString 1700000000123 <> "2023-11-14T22:13:20.456Z".
Proof. vm_compute. repeat split; discriminate. Qed.

(** ** Frame properties *)

(** C10. The handler never writes to the delivered object: after it
    returns the payload has the properties it was delivered with, and so has
    every other object that existed before; what the handler writes to (the
    entity, the search document) was allocated by the handler itself. *)
Theorem payload_is_not_mutated this l o w :
  heap w !! l = Some o ->
  let r := handleLogEvent this (JObject l) w in
  heap r.2 !! l = Some o /\
  forall l' o', heap w !! l' = Some o' -> heap r.2 !! l' = Some o'.
Proof.
  intros Hl r. subst r.
  rewrite (handleLogEvent_run this l o w Hl). cbn [snd].
  assert (H : forall l' o', heap w !! l' = Some o' ->
            heap (after_elasticsearch this o
                    (after_database o (emit (receipt o) w))) !! l' = Some o').
  { intros l' o' Hl'.
    apply after_elasticsearch_live, after_database_live. exact Hl'. }
  split; [apply H; exact Hl | exact H].
Qed.

Lemma payload_is_not_mutated_witness :
  let w := world_healthy in
  let r :=
    handleLogEvent (BroadcastlistenerModule config_without_search)
      (JObject 1) w in
  heap r.2 !! 1%positive = Some (payload_obj sample_payload) /\
  forall l' o', heap w !! l' = Some o' -> heap r.2 !! l' = Some o'.
Proof.
  apply (payload_is_not_mutated _ 1%positive (payload_obj sample_payload)).
  reflexivity.
Defined.

(** ** Duplicates and persisted data *)

(** [create] copies a well-formed record whole: all its properties are
    columns. *)
Lemma entity_of_payload p : entity_of (payload_obj p) = payload_obj p.
Proof.
  unfold entity_of, payload_obj.
  rewrite !map_filter_insert_True, map_filter_empty; try reflexivity;
    (split; [unfold ActivityLog_columns; cbn; set_solver | discriminate]).
Qed.

(** The entity of a well-formed record carries no primary key, so [save]
    inserts it under a key the table does not hold yet. *)
Lemma plan_save_payload p table now :
  plan_save (payload_obj p) table now =
  (SqlInsert (fresh (dom table))
     (new_row (fresh (dom table)) (payload_obj p) now),
   fresh (dom table),
   new_row (fresh (dom table)) (payload_obj p) now).
Proof.
  unfold plan_save, entity_id.
  replace (payload_obj p !! "id") with (@None prim); [reflexivity|].
  unfold payload_obj. by simplify_map_eq.
Qed.


(** With the store accepting the write, one delivery of a well-formed
    record adds one row under a fresh key. *)
Lemma handleLogEvent_inserts this l p w :
  heap w !! l = Some (payload_obj p) ->
  db_fault w (payload_obj p) = None ->
  db_table (handleLogEvent this (JObject l) w).2 =
  <[fresh (dom (db_table w)) :=
      new_row (fresh (dom (db_table w))) (payload_obj p) (db_clock w)]>
    (db_table w).
Proof.
  intros Hl Hok. rewrite (handleLogEvent_db_table this l _ w Hl).
  unfold after_database. rewrite entity_of_payload, Hok, plan_save_payload.
  reflexivity.
Qed.

(** A delivery changes neither the clocks nor the health of the sinks. *)
Lemma handleLogEvent_environment this l o w :
  heap w !! l = Some o ->
  let w' := (handleLogEvent this (JObject l) w).2 in
  db_clock w' = db_clock w /\ app_clock w' = app_clock w /\
  db_fault w' = db_fault w /\ es_fault w' = es_fault w.
Proof.
  intros Hl w'. subst w'.
  rewrite (handleLogEvent_run this l o w Hl). cbn [snd].
  autorewrite with frame. repeat split.
Qed.

(** Objects that exist before a delivery are not written to. *)
Lemma handleLogEvent_keeps_objects this l o w l' o' :
  heap w !! l = Some o ->
  heap w !! l' = Some o' ->
  heap (handleLogEvent this (JObject l) w).2 !! l' = Some o'.
Proof.
  intros Hl Hl'. rewrite (handleLogEvent_run this l o w Hl). cbn [snd].
  apply after_elasticsearch_live, after_database_live. exact Hl'.
Qed.


(** Rows that exist before a delivery of a well-formed record are neither
    updated nor removed. *)
Lemma one_delivery_keeps_rows this l p w id row :
  heap w !! l = Some (payload_obj p) ->
  db_table w !! id = Some row ->
  db_table (handleLogEvent this (JObject l) w).2 !! id = Some row.
Proof.
  intros Hl Hrow.
  destruct (db_fault w (payload_obj p)) as [err|] eqn:Hfault.
  - rewrite (handleLogEvent_db_table this l _ w Hl).
    unfold after_database. rewrite entity_of_payload, Hfault. exact Hrow.
  - rewrite (handleLogEvent_inserts this l p w Hl Hfault).
    rewrite lookup_insert_ne; [exact Hrow|].
    intros Heq. apply (is_fresh (dom (db_table w))).
    rewrite Heq. apply elem_of_dom. eauto.
Qed.



(** The same scenario computed: two rows, two documents, equal apart from
    the generated keys. *)
Example duplicates_scenario :
  let this := BroadcastlistenerModule config_without_search in
  let r1 := handleLogEvent this (JObject 1) world_healthy in
  let r2 := handleLogEvent this (JObject 1) r1.2 in
  size (db_table r1.2) = 1%nat /\ size (db_table r2.2) = 2%nat /\
  length (es_docs r1.2) = 1%nat /\ length (es_docs r2.2) = 2%nat.
Proof. vm_compute. repeat split. Qed.

(** ** The optional search indexer *)


Lemma SearchModule_configured_node cfg c s :
  cfg !! "ELASTICSEARCH_NODE" = Some (String c s) ->
  es_node (SearchModule cfg) = String c s.
Proof. unfold SearchModule, useFactory. cbn. intros ->. reflexivity. Qed.




(** * Further properties of the handler and of the module graph *)

(** ** The healthy path *)

(** X1. When both writes succeed, the delivery logs exactly three lines at
    log level, in this order: the receipt, "Saved to MariaDB", "Saved to
    Elasticsearch"; it logs no warning and no error. *)
Theorem healthy_delivery_logs es l o w :
  heap w !! l = Some o ->
  db_fault w (entity_of o) = None ->
  es_fault w (es_node es) "activity-logs" (search_body o w) = None ->
  let r := handleLogEvent (mkListener (Some es)) (JObject l) w in
  let evs := new_events w r.2 in
  r.1 = Ok tt /\
  logs_at LLog evs =
    [receipt o; EvLog LLog "Saved to MariaDB" None;
     EvLog LLog "Saved to Elasticsearch" None] /\
  logs_at LWarn evs = [] /\
  logs_at LError evs = [].
Proof.
  intros Hl Hdb Hes r evs. subst r evs.
  rewrite (handleLogEvent_new_events _ l o w Hl).
  rewrite (handleLogEvent_run _ l o w Hl). cbn [fst].
  unfold database_events, elasticsearch_events. cbn [elasticsearchService].
  rewrite Hdb, Hes. repeat split.
Qed.

Lemma healthy_delivery_logs_witness :
  let es := SearchModule config_without_search in
  let o := payload_obj sample_payload in
  let w := world_healthy in
  let r := handleLogEvent (mkListener (Some es)) (JObject 1) w in
  let evs := new_events w r.2 in
  r.1 = Ok tt /\
  logs_at LLog evs =
    [receipt o; EvLog LLog "Saved to MariaDB" None;
     EvLog LLog "Saved to Elasticsearch" None] /\
  logs_at LWarn evs = [] /\
  logs_at LError evs = [].
Proof.
  apply (healthy_delivery_logs (SearchModule config_without_search)
           1%positive (payload_obj sample_payload) world_healthy);
    reflexivity.
Defined.




(** ** Payloads that are not well-formed records *)

(** X3. The handler validates nothing.  For an object without [userId] it
    still returns normally: the receipt prints "undefined" for the user,
    and the one [save] call is made, under the identity undefined, for an
    entity without [userId]. *)
Theorem missing_userId_is_not_rejected this l o w :
  heap w !! l = Some o ->
  o !! "userId" = None ->
  let r := handleLogEvent this (JObject l) w in
  let evs := new_events w r.2 in
  r.1 = Ok tt /\
  head evs =
    Some (EvLog LLog
            ("Caught log event! User: undefined, URL: " +:+
             to_string (default PUndefined (o !! "url"))) None) /\
  save_calls evs = [EvSaveCall (entity_of o) (Some PUndefined)] /\
  entity_of o !! "userId" = None.
Proof.
  intros Hl Hu r evs. subst r evs.
  rewrite (handleLogEvent_new_events this l o w Hl).
  rewrite (handleLogEvent_run this l o w Hl). cbn [fst].
  split; [reflexivity|].
  split; [unfold receipt; rewrite Hu; reflexivity|].
  split.
  - unfold database_events, elasticsearch_events. rewrite Hu.
    destruct (db_fault _ _);
      (destruct (elasticsearchService this); [destruct (es_fault _ _ _ _)|]);
      reflexivity.
  - destruct (entity_of o !! "userId") eqn:E; [|reflexivity].
    apply map_lookup_filter_Some in E as [E _]. congruence.
Qed.

Lemma missing_userId_is_not_rejected_witness :
  let this := BroadcastlistenerModule config_without_search in
  let o := odd_object in
  let w := world_odd in
  let r := handleLogEvent this (JObject 1) w in
  let evs := new_events w r.2 in
  r.1 = Ok tt /\
  head evs =
    Some (EvLog LLog
            ("Caught log event! User: undefined, URL: " +:+
             to_string (default PUndefined (o !! "url"))) None) /\
  save_calls evs = [EvSaveCall (entity_of o) (Some PUndefined)] /\
  entity_of o !! "userId" = None.
Proof.
  apply (missing_userId_is_not_rejected _ 1%positive odd_object world_odd);
    reflexivity.
Defined.

(** X4. Whatever object is delivered, the document indexed is a copy of all
    its own properties, columns of the table or not, except that
    [timestamp] is always the one generated at index time: a [timestamp]
    the payload brings along is overwritten. *)
Theorem search_document_copies_every_property es l o w :
  heap w !! l = Some o ->
  es_fault w (es_node es) "activity-logs" (search_body o w) = None ->
  let r := handleLogEvent (mkListener (Some es)) (JObject l) w in
  exists doc,
    es_docs r.2 = es_docs w ++ [("activity-logs", doc)] /\
    doc !! "timestamp" = Some (PStr (toISOString (app_clock w))) /\
    (forall k, k <> "timestamp" -> doc !! k = o !! k) /\
    dom doc = {["timestamp"]} ∪ dom o.
Proof.
  intros Hl Hok r. subst r.
  exists (search_body o w).
  rewrite (handleLogEvent_es_docs _ l o w Hl). cbn [elasticsearchService].
  rewrite Hok. unfold search_body.
  split; [reflexivity|]. split; [apply lookup_insert_eq|].
  split; [intros k Hk; by rewrite lookup_insert_ne|].
  apply dom_insert_L.
Qed.

Lemma search_document_copies_every_property_witness :
  let es := SearchModule config_without_search in
  let o := odd_object in
  let w := world_odd in
  let r := handleLogEvent (mkListener (Some es)) (JObject 1) w in
  o !! "timestamp" = Some (PStr "yesterday") /\
  exists doc,
    es_docs r.2 = es_docs w ++ [("activity-logs", doc)] /\
    doc !! "timestamp" = Some (PStr "2023-11-14T22:13:20.456Z") /\
    (forall k, k <> "timestamp" -> doc !! k = o !! k) /\
    dom doc = {["timestamp"]} ∪ dom o.
Proof.
  split; [reflexivity|].
  apply (search_document_copies_every_property
           (SearchModule config_without_search) 1%positive odd_object
           world_odd);
    reflexivity.
Defined.



(** ** Failures in both sinks, and their independence *)



(** X7. The two sinks are isolated in both directions.  What ends up in the
    table is the same whether or not a search client is present and
    whatever the health of the search node; what ends up in the index is
    the same whatever the health and the clock of the relational store. *)
Theorem sinks_are_isolated this this' l o w :
  heap w !! l = Some o ->
  (forall f,
     db_table (handleLogEvent this (JObject l) (set_es_fault f w)).2 =
     db_table (handleLogEvent this' (JObject l) w).2) /\
  (forall g t,
     es_docs
       (handleLogEvent this (JObject l) (set_db_fault g (set_db_clock t w))).2 =
     es_docs (handleLogEvent this (JObject l) w).2).
Proof.
  intros Hl. split.
  - intros f.
    rewrite (handleLogEvent_db_table this l o (set_es_fault f w)) by exact Hl.
    rewrite (handleLogEvent_db_table this' l o w Hl).
    unfold after_database. cbn [set_es_fault db_fault db_table db_clock].
    destruct (db_fault w (entity_of o));
      [|destruct (plan_save _ _ _) as [[? ?] ?]]; reflexivity.
  - intros g t.
    rewrite (handleLogEvent_es_docs this l o
               (set_db_fault g (set_db_clock t w))) by exact Hl.
    rewrite (handleLogEvent_es_docs this l o w Hl). reflexivity.
Qed.

Lemma sinks_are_isolated_witness :
  let this := BroadcastlistenerModule config_without_search in
  let w := world_healthy in
  (forall f,
     db_table (handleLogEvent this (JObject 1) (set_es_fault f w)).2 =
     db_table (handleLogEvent (mkListener None) (JObject 1) w).2) /\
  (forall g t,
     es_docs
       (handleLogEvent this (JObject 1) (set_db_fault g (set_db_clock t w))).2 =
     es_docs (handleLogEvent this (JObject 1) w).2).
Proof.
  apply (sinks_are_isolated _ _ 1%positive (payload_obj sample_payload)).
  reflexivity.
Defined.

(** ** The search node of the module graph *)



(** ** Successive deliveries *)

Lemma handleLogEvent_object_returns this l w :
  exists w', handleLogEvent this (JObject l) w = (Ok tt, w').
Proof.
  unfold handleLogEvent.
  unfold mbind at 1 2 3 4, M_bind, get_prop, gets, logger_log, modify.
  match goal with
  | |- context [save_to_database ?p ?w0] =>
      destruct (save_to_database_never_throws p w0) as [w1 ->]
  end.
  apply save_to_elasticsearch_never_throws.
Qed.

Lemma deliver_all_cons this payload rest w :
  deliver_all this (payload :: rest) w =
  ((handleLogEvent this payload w).1 ::
     (deliver_all this rest (handleLogEvent this payload w).2).1,
   (deliver_all this rest (handleLogEvent this payload w).2).2).
Proof.
  cbn [deliver_all].
  destruct (handleLogEvent this payload w) as [r w1]. cbn [fst snd].
  destruct (deliver_all this rest w1) as [rs w2]. reflexivity.
Qed.

(** X9. With both sinks accepting, any number of deliveries of well-formed
    records, duplicates included, all return normally and persist one row
    and one document each; rows that were in the table before are still
    there, unchanged. *)
Theorem each_delivery_adds_one_row_and_one_document es ls w :
  Forall (fun l => exists p, heap w !! l = Some (payload_obj p)) ls ->
  (forall e, db_fault w e = None) ->
  (forall n i b, es_fault w n i b = None) ->
  let r := deliver_all (mkListener (Some es)) (JObject <$> ls) w in
  Forall (fun x => x = Ok tt) r.1 /\
  length r.1 = length ls /\
  size (db_table r.2) = (size (db_table w) + length ls)%nat /\
  length (es_docs r.2) = (length (es_docs w) + length ls)%nat /\
  (forall id row,
     db_table w !! id = Some row -> db_table r.2 !! id = Some row).
Proof.
  revert w. induction ls as [|l ls IH]; intros w Hlive Hdb Hes r; subst r.
  - cbn. repeat split; auto with lia.
  - rewrite fmap_cons, deliver_all_cons. cbn [fst snd].
    apply Forall_cons in Hlive as [[p Hl] Hlive].
    set (this := mkListener (Some es)) in *.
    set (w1 := (handleLogEvent this (JObject l) w).2).
    destruct (handleLogEvent_environment this l _ w Hl)
      as (_ & _ & Hdbf & Hesf).
    cbv zeta in Hdbf, Hesf. fold w1 in Hdbf, Hesf.
    assert (Hlive1 : Forall (fun l => exists p,
                        heap w1 !! l = Some (payload_obj p)) ls).
    { eapply Forall_impl; [exact Hlive|]. intros l' [p' Hl'].
      exists p'. apply (handleLogEvent_keeps_objects this l _ w l' _ Hl Hl'). }
    destruct (IH w1 Hlive1) as (IH1 & IH2 & IH3 & IH4 & IH5).
    { intros e. rewrite Hdbf. apply Hdb. }
    { intros n i b. rewrite Hesf. apply Hes. }
    assert (Htab : size (db_table w1) = S (size (db_table w))).
    { unfold w1. rewrite (handleLogEvent_inserts this l p w Hl (Hdb _)).
      apply map_size_insert_None, not_elem_of_dom, is_fresh. }
    assert (Hdocs : length (es_docs w1) = S (length (es_docs w))).
    { unfold w1. rewrite (handleLogEvent_es_docs this l _ w Hl).
      cbn [this elasticsearchService]. rewrite Hes, length_app. cbn. lia. }
    repeat split.
    + constructor; [|exact IH1].
      rewrite (handleLogEvent_run this l _ w Hl). reflexivity.
    + cbn. rewrite IH2. reflexivity.
    + rewrite IH3, Htab. cbn. lia.
    + rewrite IH4, Hdocs. cbn. lia.
    + intros id row Hrow. apply IH5.
      apply (one_delivery_keeps_rows this l p w id row Hl Hrow).
Qed.

Lemma each_delivery_adds_one_row_and_one_document_witness :
  let es := SearchModule config_without_search in
  let w := world_healthy in
  let r :=
    deliver_all (mkListener (Some es))
      (JObject <$> [1%positive; 1%positive; 1%positive]) w in
  Forall (fun x => x = Ok tt) r.1 /\
  length r.1 = 3%nat /\
  size (db_table r.2) = (size (db_table w) + 3)%nat /\
  length (es_docs r.2) = (length (es_docs w) + 3)%nat /\
  (forall id row,
     db_table w !! id = Some row -> db_table r.2 !! id = Some row).
Proof.
  apply (each_delivery_adds_one_row_and_one_document
           (SearchModule config_without_search)
           [1%positive; 1%positive; 1%positive] world_healthy).
  - repeat constructor; exists sample_payload; reflexivity.
  - reflexivity.
  - reflexivity.
Defined.

(** X10. In a sequence of deliveries the outcome of each call depends on
    its own payload only: an object returns normally, undefined and null
    raise a TypeError; and a call that raises leaves no trace, so the
    deliveries around it end in the same world as without it. *)
Theorem deliveries_are_independent this before after w :
  Forall2
    (fun payload r =>
       match payload with
       | JObject _ => r = Ok tt
       | _ => exists e, r = Throw e /\ err_name e = "TypeError"
       end)
    (before ++ after) (deliver_all this (before ++ after) w).1 /\
  (deliver_all this (before ++ JNull :: after) w).2 =
    (deliver_all this (before ++ after) w).2 /\
  (deliver_all this (before ++ JUndefined :: after) w).2 =
    (deliver_all this (before ++ after) w).2.
Proof.
  split; [|split].
  - generalize (before ++ after) as ps. intros ps. revert w.
    induction ps as [|payload ps IH]; intros w.
    + constructor.
    + rewrite deliver_all_cons. cbn [fst]. constructor; [|apply IH].
      destruct payload as [| |l].
      * eexists; split; reflexivity.
      * eexists; split; reflexivity.
      * destruct (handleLogEvent_object_returns this l w) as [w' ->].
        reflexivity.
  - revert w. induction before as [|payload ps IH]; intros w.
    + cbn [app]. rewrite deliver_all_cons. reflexivity.
    + cbn [app]. rewrite !deliver_all_cons. cbn [snd]. apply IH.
  - revert w. induction before as [|payload ps IH]; intros w.
    + cbn [app]. rewrite deliver_all_cons. reflexivity.
    + cbn [app]. rewrite !deliver_all_cons. cbn [snd]. apply IH.
Qed.

(** ** Ports read from the environment *)

Lemma digit_value_pretty_N_char d :
  (d < 10)%N -> digit_value 10 (pretty_N_char d) = Some (Z.of_N d).
Proof.
  intros Hd.
  assert (Hc : (d = 0 \/ d = 1 \/ d = 2 \/ d = 3 \/ d = 4 \/ d = 5 \/ d = 6 \/
                d = 7 \/ d = 8 \/ d = 9)%N) by lia.
  repeat destruct Hc as [-> | Hc]; try rewrite Hc; reflexivity.
Qed.

(** Reading the decimal print of [x] shifts what was read before by the
    number of digits of [x] and adds [x]. *)
Lemma parse_digits_pretty_N_go x s :
  (0 < x)%N ->
  exists k, 0 <= k /\
    forall acc,
      parse_digits 10 (pretty_N_go x s) acc =
      parse_digits 10 s (Some (10 ^ k * default 0 acc + Z.of_N x)).
Proof.
  revert s. induction (N.lt_wf_0 x) as [x _ IH]. intros s Hx.
  rewrite pretty_N_go_step by exact Hx.
  pose proof (N.mod_lt x 10 ltac:(lia)) as Hmod.
  pose proof (N.div_mod x 10 ltac:(lia)) as Hdiv.
  destruct (decide (x `div` 10 = 0)%N) as [Hz|Hnz].
  - rewrite Hz, pretty_N_go_0. exists 1. split; [lia|]. intros acc.
    cbn [parse_digits]. rewrite digit_value_pretty_N_char by exact Hmod.
    do 2 f_equal. change (10 ^ 1) with 10.
    replace (x `mod` 10)%N with x by lia. reflexivity.
  - destruct (IH (x `div` 10)%N) with
      (s := String (pretty_N_char (x `mod` 10)) s) as (k & Hk & Hrec).
    { apply N.div_lt; lia. }
    { lia. }
    exists (k + 1). split; [lia|]. intros acc. rewrite Hrec.
    cbn [parse_digits]. rewrite digit_value_pretty_N_char by exact Hmod.
    cbn [default]. do 2 f_equal.
    rewrite Z.pow_add_r by lia. change (10 ^ 1) with 10.
    replace (Z.of_N x)
      with (10 * Z.of_N (x `div` 10) + Z.of_N (x `mod` 10)) by lia.
    generalize (default 0 acc) (10 ^ k) (Z.of_N (x `div` 10))
      (Z.of_N (x `mod` 10)).
    intros. unfold id. ring.
Qed.

(** The decimal print of a positive number starts with a digit from 1 to
    9. *)
Lemma pretty_N_go_head x s :
  (0 < x)%N ->
  exists d r, (0 < d < 10)%N /\ pretty_N_go x s = String (pretty_N_char d) r.
Proof.
  revert s. induction (N.lt_wf_0 x) as [x _ IH]. intros s Hx.
  rewrite pretty_N_go_step by exact Hx.
  destruct (decide (x `div` 10 = 0)%N) as [Hz|Hnz].
  - rewrite Hz, pretty_N_go_0. exists (x `mod` 10)%N, s.
    split; [|reflexivity].
    pose proof (N.mod_lt x 10 ltac:(lia)).
    pose proof (N.div_mod x 10 ltac:(lia)). lia.
  - apply IH; [apply N.div_lt; lia | by apply N.neq_0_lt_0].
Qed.

Lemma pretty_N_go_app x s t :
  pretty_N_go x s +:+ t = pretty_N_go x (s +:+ t).
Proof.
  revert s. induction (N.lt_wf_0 x) as [x _ IH]. intros s.
  destruct (decide (0 < x)%N) as [Hx|Hx].
  - rewrite (pretty_N_go_step x s), (pretty_N_go_step x (s +:+ t))
      by exact Hx.
    rewrite IH by (apply N.div_lt; lia). reflexivity.
  - replace x with 0%N by lia. rewrite !pretty_N_go_0. reflexivity.
Qed.

Lemma trim_start_leading_digit d r :
  (0 < d < 10)%N ->
  trim_start (String (pretty_N_char d) r) = String (pretty_N_char d) r.
Proof.
  intros Hd.
  assert (Hc : (d = 1 \/ d = 2 \/ d = 3 \/ d = 4 \/ d = 5 \/ d = 6 \/
                d = 7 \/ d = 8 \/ d = 9)%N) by lia.
  repeat destruct Hc as [-> | Hc]; try rewrite Hc;
    destruct r as [|c2 [|c3 r3]]; reflexivity.
Qed.

(** A string that starts with a digit from 1 to 9 is read in radix 10,
    with nothing skipped. *)
Lemma parseInt_leading_digit d r :
  (0 < d < 10)%N ->
  parseInt (String (pretty_N_char d) r) =
  match parse_digits 10 (String (pretty_N_char d) r) None with
  | Some n => Num n
  | None => NaN
  end.
Proof.
  intros Hd. unfold parseInt. rewrite (trim_start_leading_digit d r Hd).
  assert (Hc : (d = 1 \/ d = 2 \/ d = 3 \/ d = 4 \/ d = 5 \/ d = 6 \/
                d = 7 \/ d = 8 \/ d = 9)%N) by lia.
  repeat destruct Hc as [-> | Hc]; try rewrite Hc;
    cbv beta iota zeta delta [pretty_N_char];
    destruct (parse_digits _ _ _) as [n|]; try reflexivity;
    rewrite Z.mul_1_l; reflexivity.
Qed.

(** [parseInt] reads back the decimal print of a positive number, and what
    follows the number does not matter as long as it does not go on with a
    digit. *)
Lemma parseInt_pretty (n : N) tail :
  (0 < n)%N ->
  ends_number tail ->
  parseInt (pretty n +:+ tail) = Num (Z.of_N n).
Proof.
  intros Hn Htail. unfold pretty, pretty_N.
  destruct (decide (n = 0)%N) as [?|_]; [lia|].
  rewrite pretty_N_go_app. cbn [String.append].
  change ("" +:+ tail) with tail.
  destruct (pretty_N_go_head n tail Hn) as (d & r & Hd & E).
  rewrite E, (parseInt_leading_digit d r Hd), <- E.
  destruct (parse_digits_pretty_N_go n tail Hn) as (k & _ & ->).
  cbn [default]. rewrite Z.mul_0_r, Z.add_0_l.
  destruct tail as [|c tail]; cbn [parse_digits]; [reflexivity|].
  cbn in Htail. rewrite Htail. reflexivity.
Qed.

(** What [parseInt(value || '')] makes of an environment variable. *)
Lemma port_unset v :
  v = None \/ v = Some "" -> parseInt (js_or v "") = NaN.
Proof. intros [-> | ->]; reflexivity. Qed.

Lemma port_decimal v (n : N) tail :
  (0 < n)%N ->
  ends_number tail ->
  v = Some (pretty n +:+ tail) ->
  parseInt (js_or v "") = Num (Z.of_N n).
Proof.
  intros Hn Htail ->.
  assert (Hne : js_or (Some (pretty n +:+ tail)) "" = pretty n +:+ tail).
  { unfold pretty, pretty_N.
    destruct (decide (n = 0)%N) as [?|_]; [lia|].
    rewrite pretty_N_go_app.
    destruct (pretty_N_go_head n ("" +:+ tail) Hn) as (d & r & _ & ->).
    reflexivity. }
  rewrite Hne. apply parseInt_pretty; assumption.
Qed.

(** X11. The ports of the relational store and of Redis have no default:
    when [DB_PORT] (or [REDIS_PORT]) is unset or empty the port is NaN.
    When the variable holds the decimal print of a positive number below
    2^53, possibly followed by text that does not start with a digit, the
    port is that number. *)
Theorem ports_come_from_the_environment env :
  (env !! "DB_PORT" = None \/ env !! "DB_PORT" = Some "" ->
   orm_port (AppModule_TypeOrm env) = NaN) /\
  (env !! "REDIS_PORT" = None \/ env !! "REDIS_PORT" = Some "" ->
   redis_port (AppModule_LogModule env) = NaN) /\
  (forall (n : N) tail,
     (0 < n < 2 ^ 53)%N -> ends_number tail ->
     env !! "DB_PORT" = Some (pretty n +:+ tail) ->
     orm_port (AppModule_TypeOrm env) = Num (Z.of_N n)) /\
  (forall (n : N) tail,
     (0 < n < 2 ^ 53)%N -> ends_number tail ->
     env !! "REDIS_PORT" = Some (pretty n +:+ tail) ->
     redis_port (AppModule_LogModule env) = Num (Z.of_N n)).
Proof.
  unfold AppModule_TypeOrm, AppModule_LogModule. cbn [orm_port redis_port].
  repeat split.
  - apply port_unset.
  - apply port_unset.
  - intros n tail [Hn _]. apply port_decimal. exact Hn.
  - intros n tail [Hn _]. apply port_decimal. exact Hn.
Qed.

Lemma ports_come_from_the_environment_witness :
  let env : ProcessEnv :=
    {[ "DB_PORT" := "3306"; "REDIS_PORT" := "6379/tcp" ]} in
  (0 < 3306 < 2 ^ 53)%N /\ (0 < 6379 < 2 ^ 53)%N /\
  ends_number "" /\ ends_number "/tcp" /\
  orm_port (AppModule_TypeOrm env) = Num 3306 /\
  redis_port (AppModule_LogModule env) = Num 6379 /\
  orm_port (AppModule_TypeOrm ∅) = NaN /\
  redis_port (AppModule_LogModule ∅) = NaN.
Proof.
  intros env.
  destruct (ports_come_from_the_environment env) as (_ & _ & Hdb & Hredis).
  destruct (ports_come_from_the_environment ∅) as (Hdb0 & Hredis0 & _ & _).
  assert (H1 : (0 < 3306 < 2 ^ 53)%N) by (vm_compute; split; reflexivity).
  assert (H2 : (0 < 6379 < 2 ^ 53)%N) by (vm_compute; split; reflexivity).
  assert (H3 : ends_number "") by exact I.
  assert (H4 : ends_number "/tcp") by reflexivity.
  split; [exact H1|]. split; [exact H2|]. split; [exact H3|].
  split; [exact H4|].
  split; [exact (Hdb 3306%N "" H1 H3 eq_refl)|].
  split; [exact (Hredis 6379%N "/tcp" H2 H4 eq_refl)|].
  split; [apply Hdb0; left; reflexivity | apply Hredis0; left; reflexivity].
Defined.

Example parseInt_edge_cases :
  parseInt "  42px" = Num 42 /\ parseInt "-17" = Num (-17) /\
  parseInt "0x1F" = Num 31 /\ parseInt "0x" = NaN /\
  parseInt "abc" = NaN /\ parseInt "12.5" = Num 12 /\
  parseInt "08" = Num 8 /\ parseInt "- 5" = NaN.
Proof. repeat split. Qed.

(** ** What the logs say *)

(** X12. The success lines are truthful: "Saved to MariaDB" is logged
    exactly when the store answered the [save] with success, "Saved to
    Elasticsearch" exactly when the node answered the index call with
    success, the error line exactly when the [save] failed (and it carries
    the error of that failure), and the warning exactly when the index call
    failed. *)
Theorem logs_tell_the_outcome this l o w :
  heap w !! l = Some o ->
  let evs := new_events w (handleLogEvent this (JObject l) w).2 in
  (In (EvLog LLog "Saved to MariaDB" None) evs <->
   In (EvSaveReturn None) evs) /\
  (In (EvLog LLog "Saved to Elasticsearch" None) evs <->
   In (EvIndexReturn None) evs) /\
  (forall e,
     In (EvLog LError "Failed to save activity log to MariaDB" (Some e)) evs
     <-> In (EvSaveReturn (Some e)) evs) /\
  (In (EvLog LWarn "Elasticsearch not available, skipping ES save" None) evs
   <-> exists e, In (EvIndexReturn (Some e)) evs).
Proof.
  intros Hl evs. subst evs.
  rewrite (handleLogEvent_new_events this l o w Hl).
  unfold receipt, database_events, elasticsearch_events.
  destruct (db_fault w (entity_of o)) as [e1|];
    (destruct (elasticsearchService this) as [es|];
     [destruct (es_fault _ _ _ _) as [e2|]|]);
    cbn -[entity_of plan_save search_body to_string];
    repeat split; intros H;
    repeat match goal with
      | H : _ \/ _ |- _ => destruct H as [H|H]
      | H : False |- _ => destruct H
      | H : exists _, _ |- _ => destruct H as [? H]
      | H : _ = _ |- _ => discriminate H
      | H : _ = _ |- _ => injection H as ->
      end;
    eauto 12.
Qed.

Lemma logs_tell_the_outcome_witness :
  let w := world_es_down in
  let evs :=
    new_events w
      (handleLogEvent (BroadcastlistenerModule config_without_search)
         (JObject 1) w).2 in
  (In (EvLog LLog "Saved to MariaDB" None) evs <->
   In (EvSaveReturn None) evs) /\
  (In (EvLog LLog "Saved to Elasticsearch" None) evs <->
   In (EvIndexReturn None) evs) /\
  (forall e,
     In (EvLog LError "Failed to save activity log to MariaDB" (Some e)) evs
     <-> In (EvSaveReturn (Some e)) evs) /\
  (In (EvLog LWarn "Elasticsearch not available, skipping ES save" None) evs
   <-> exists e, In (EvIndexReturn (Some e)) evs).
Proof.
  apply (logs_tell_the_outcome _ 1%positive (payload_obj sample_payload)).
  reflexivity.
Defined.

(** ** The identity scope across deliveries *)

Lemma handleLogEvent_save_calls this l o w :
  heap w !! l = Some o ->
  save_calls (new_events w (handleLogEvent this (JObject l) w).2) =
  [save_call_for o].
Proof.
  intros Hl. rewrite (handleLogEvent_new_events this l o w Hl).
  unfold database_events, elasticsearch_events, save_call_for.
  destruct (db_fault _ _);
    (destruct (elasticsearchService this); [destruct (es_fault _ _ _ _)|]);
    reflexivity.
Qed.

Lemma handleLogEvent_trace_grows this l o w :
  heap w !! l = Some o ->
  trace (handleLogEvent this (JObject l) w).2 =
  trace w ++ new_events w (handleLogEvent this (JObject l) w).2.
Proof.
  intros Hl. rewrite (handleLogEvent_new_events this l o w Hl).
  apply handleLogEvent_trace. exact Hl.
Qed.

Lemma deliver_all_save_calls this ls w :
  Forall (fun l => is_Some (heap w !! l)) ls ->
  exists evs,
    trace (deliver_all this (JObject <$> ls) w).2 = trace w ++ evs /\
    save_calls evs = (fun l => save_call_for (deref l w)) <$> ls.
Proof.
  revert w. induction ls as [|l ls IH]; intros w Hlive.
  - exists []. cbn. rewrite app_nil_r. split; reflexivity.
  - apply Forall_cons in Hlive as [[o Hl] Hlive].
    rewrite fmap_cons, deliver_all_cons. cbn [snd].
    set (w1 := (handleLogEvent this (JObject l) w).2).
    assert (Hkeep : forall l' o', heap w !! l' = Some o' ->
                      heap w1 !! l' = Some o').
    { intros l' o' Hl'.
      apply (handleLogEvent_keeps_objects this l o w l' o' Hl Hl'). }
    destruct (IH w1) as (evs & Htr & Hcalls).
    { eapply Forall_impl; [exact Hlive|]. intros l' [o' Hl'].
      exists o'. apply Hkeep. exact Hl'. }
    exists (new_events w w1 ++ evs). split.
    + rewrite Htr. unfold w1.
      rewrite (handleLogEvent_trace_grows this l o w Hl).
      rewrite app_assoc. reflexivity.
    + unfold save_calls in *. rewrite List.filter_app, Hcalls.
      fold (save_calls (new_events w w1)). unfold w1.
      rewrite (handleLogEvent_save_calls this l o w Hl).
      rewrite fmap_cons, (deref_live l o w Hl). cbn [app]. f_equal.
      apply Forall_fmap_ext_1.
      eapply Forall_impl; [exact Hlive|]. intros l' [o' Hl']. cbv beta.
      pose proof (Hkeep l' o' Hl') as Hk. unfold w1 in Hk.
      rewrite (deref_live l' o' w Hl'), (deref_live l' o' _ Hk).
      reflexivity.
Qed.

(** X13. Over any number of successive deliveries there is exactly one
    [save] call per delivery, in delivery order, and each is made under the
    [userId] of its own payload: the identity of one record is never what
    the next record's write sees. *)
Theorem each_write_sees_its_own_identity this ls w :
  Forall (fun l => is_Some (heap w !! l)) ls ->
  save_calls (new_events w (deliver_all this (JObject <$> ls) w).2) =
  (fun l =>
     EvSaveCall (entity_of (deref l w))
       (Some (default PUndefined (deref l w !! "userId")))) <$> ls.
Proof.
  intros Hlive.
  destruct (deliver_all_save_calls this ls w Hlive) as (evs & Htr & Hcalls).
  unfold new_events. rewrite Htr, drop_app_length. exact Hcalls.
Qed.

Lemma each_write_sees_its_own_identity_witness :
  let this := BroadcastlistenerModule config_without_search in
  let w := world_two_users in
  Forall (fun l => is_Some (heap w !! l)) [1%positive; 2%positive; 1%positive]
  /\
  save_calls
    (new_events w
       (deliver_all this (JObject <$> [1%positive; 2%positive; 1%positive])
          w).2) =
  [EvSaveCall (payload_obj sample_payload) (Some (PStr "user-123"));
   EvSaveCall (payload_obj other_payload) (Some (PStr "user-456"));
   EvSaveCall (payload_obj sample_payload) (Some (PStr "user-123"))].
Proof.
  intros this w.
  assert (Hlive : Forall (fun l => is_Some (heap w !! l))
                    [1%positive; 2%positive; 1%positive]).
  { repeat constructor; eexists; reflexivity. }
  split; [exact Hlive|].
  rewrite (each_write_sees_its_own_identity this _ w Hlive).
  vm_compute. reflexivity.
Defined.
